(** * EMP500 metabolomics: putative microbial secondary metabolites

    A shallow embedding of the notebook
    [notebooks/EMP-metabo_CMN_microbial_metabolites.ipynb]: the InChIKey
    first-block normaliser, the NPAtlas / MIBIG aggregation and left merge,
    the MSI-level tiering loop, the tool / identifier summary loop and the
    molecular-network propagation, with the properties they satisfy. *)

From Stdlib Require Import ZArith Ascii DecimalString.
From stdpp Require Import ssreflect base option list sorting gmap strings.

Local Open Scope Z_scope.
Local Open Scope stdpp_scope.

(** ** Cells, rows and data frames *)

Module Pandas.

(** A cell of a data frame: the missing marker [np.nan], a Python string or
    a Python integer.  The notebook tests cells with [is not np.nan], an
    identity test; it is read here as "is not missing", which it is on the
    object columns that [pd.merge] and the ['YES'] lists give.  A column
    that pandas stores as floats (a tier list with no ['YES'] in it) hands
    out fresh float objects, on which the identity test does not see the
    missing marker: object identity is not part of this model. *)
Inductive value : Type :=
  | NaN
  | Str (s : string)
  | Int (z : Z).

#[global] Instance value_eq_dec : EqDecision value.
Proof. solve_decision. Defined.

#[global] Instance value_inhabited : Inhabited value := populate NaN.

(** [v is not np.nan] *)
Definition is_not_nan (v : value) : bool :=
  match v with NaN => false | _ => true end.

(** [str(v)] *)
Definition str (v : value) : string :=
  match v with
  | NaN => "nan"
  | Str s => s
  | Int z => NilZero.string_of_int (Z.to_int z)
  end.

(** [s.split(sep)] for a one-character separator. *)
Fixpoint split (sep : ascii) (s : string) : list string :=
  match s with
  | EmptyString => [""]
  | String c s' =>
      if decide (c = sep) then "" :: split sep s'
      else match split sep s' with
           | x :: xs => String c x :: xs
           | [] => [String c ""]
           end
  end.

(** [sep.join(l)] *)
Fixpoint join (sep : string) (l : list string) : string :=
  match l with
  | [] => ""
  | [x] => x
  | x :: xs => x +:+ sep +:+ join sep xs
  end.

(** A row maps column labels to cells; a frame lists its column labels and
    its rows.  Which labels exist is decided by [columns]: reading a label
    that is not listed raises [KeyError], modelled by [None]. *)
Abbreviation row := (gmap string value).

Record frame : Type := Frame { columns : list string; rows : list row }.

(** [row[c]] inside [for i, row in table.iterrows()] *)
Definition getitem (cols : list string) (r : row) (c : string) : option value :=
  if decide (c ∈ cols) then Some (r !!! c) else None.

(** [table[c]] as the list of its cells *)
Definition column (f : frame) (c : string) : option (list value) :=
  if decide (c ∈ columns f) then Some ((λ r : row, r !!! c) <$> rows f) else None.

Definition add_column (cols : list string) (c : string) : list string :=
  if decide (c ∈ cols) then cols else cols ++ [c].

(** [table[c] = vals]: a new column (or an overwritten one); pandas raises
    [ValueError] when the list is not as long as the frame. *)
Definition setitem (c : string) (vals : list value) (f : frame) : option frame :=
  if decide (length vals = length (rows f))
  then Some (Frame (add_column (columns f) c)
                   (zip_with (λ (r : row) v, <[c := v]> r) (rows f) vals))
  else None.

(** [table.drop(c, axis=1)] *)
Definition drop_column (c : string) (f : frame) : option frame :=
  if decide (c ∈ columns f)
  then Some (Frame (filter (λ x, x ≠ c) (columns f)) (delete c <$> rows f))
  else None.

(** [table.rename(columns = {i: prefix + i for every column i})] *)
Definition add_prefix (prefix : string) (f : frame) : frame :=
  Frame (String.app prefix <$> columns f)
        ((λ r : row, kmap (M2 := gmap string) (String.app prefix) r) <$> rows f).

(** The order in which [groupby] lists its group keys: sorted, integers
    before strings as Python 2 compares them. *)
Definition value_le (a b : value) : Prop :=
  match a, b with
  | NaN, _ => True
  | _, NaN => False
  | Int x, Int y => (x ≤ y)%Z
  | Int _, Str _ => True
  | Str _, Int _ => False
  | Str x, Str y => String.le x y
  end.

#[global] Instance value_le_dec : RelDecision value_le.
Proof. intros [|x|x] [|y|y]; simpl; apply _. Defined.

(** The keys of [f.groupby(key)]: the distinct cells of the key column,
    missing keys dropped, sorted. *)
Definition group_keys (key : string) (rs : list row) : list value :=
  merge_sort value_le
    (remove_dups (filter (λ k, k ≠ NaN) ((λ r : row, r !!! key) <$> rs))).

(** The rows of the group of key [k], in their order in the frame. *)
Definition group_rows (key : string) (k : value) (rs : list row) : list row :=
  filter (λ r : row, r !!! key = k) rs.

(** [lambda values: '|'.join([str(v) for v in values])] on the cells of
    column [fld] in a group. *)
Definition agg_join (fld : string) (group : list row) : value :=
  Str (join "|" (str <$> ((λ r : row, r !!! fld) <$> group))).

Definition agg_row (key : string) (fields : list string) (rs : list row)
    (k : value) : row :=
  <[key := k]>
    (list_to_map ((λ fld, (fld, agg_join fld (group_rows key k rs))) <$> fields)).

(** [f.groupby(key)[fields].agg(lambda values: ...).reset_index()] *)
Definition groupby_agg (key : string) (fields : list string) (f : frame)
    : option frame :=
  if decide (Forall (λ c, c ∈ columns f) (key :: fields))
  then Some (Frame (key :: fields)
                   (agg_row key fields (rows f) <$> group_keys key (rows f)))
  else None.

Definition nan_row (cols : list string) : row :=
  list_to_map ((λ c, (c, NaN)) <$> cols).

(** [pd.merge(left, right, left_on=.., right_on=.., how='left')]: the rows
    of [left] in their order, each once per row of [right] with an equal
    key (a missing key equals a missing key, as pandas has it), or once
    with the columns of [right] missing when there is none.  The labels of
    the two frames are taken to be distinct, as the prefixes make them
    here; pandas would rename a label they share. *)
Definition merge_left (left right : frame) (left_on right_on : string)
    : option frame :=
  if decide (left_on ∈ columns left ∧ right_on ∈ columns right)
  then Some (Frame (columns left ++ columns right)
         (l ← rows left;
          match filter (λ m : row, m !!! right_on = l !!! left_on) (rows right) with
          | [] => [l ∪ nan_row (columns right)]
          | ms => (λ m : row, l ∪ m) <$> ms
          end))
  else None.

End Pandas.

Import Pandas.

(** ** Generate the InChIKey first block *)

(** One cell of [table[column].str.split('-').str[0]]: the [.str] accessor
    gives missing for a cell that is not a string. *)
Definition no_stereo (v : value) : value :=
  match v with
  | Str s => match split "-"%char s with
             | x :: _ => Str x
             | [] => NaN
             end
  | _ => NaN
  end.

Definition _prepare_inchikey (table : frame) (col : string) : option frame :=
  vals ← column table col;
  setitem (col +:+ "_no_stereo") (no_stereo <$> vals) table.

(** ** Aggregate and match feature metadata with NPAtlas and MIBIG *)

Definition gnps_lib : string := "GNPS_LIB_Consol_InChIKey".
Definition gnps_liba : string := "GNPS_LIBA_Consol_InChIKey".
Definition derep : string := "DEREP_Consol_InChIKey".
Definition derepplus : string := "DEREP+_Consol_InChIKey".
Definition csi : string := "CSI_InChIkey2D".

Definition npatlas_key : string := "NPA_compound_inchikey_no_stereo".
Definition npatlas_fields : list string :=
  ["NPA_npaid"; "NPA_compound_id"; "NPA_compound_names"; "NPA_origin_type";
   "NPA_genus"; "NPA_origin_species"; "NPA_mibig_ids"].

Definition mibig_key : string := "MIBIG_no_stereo_inchikey".
Definition mibig_fields : list string :=
  ["MIBIG_mibig_accession"; "MIBIG_organism_name"; "MIBIG_compound_name";
   "MIBIG_ncbi_tax_id"].

(** The local [npatlas2] of [_aggregate_npatlas] before the merge. *)
Definition npatlas2 (npatlas : frame) (prefix : string) : option frame :=
  add_prefix prefix <$> groupby_agg npatlas_key npatlas_fields npatlas.

(** The function leaves its result in [_aggregate_npatlas.merged]; here it
    returns it, and the caller passes it on. *)
Definition _aggregate_npatlas (table npatlas : frame) (col prefix : string)
    : option frame :=
  agg ← npatlas2 npatlas prefix;
  merge_left table agg (col +:+ "_no_stereo") (prefix +:+ npatlas_key).

Definition mibig2 (mibig : frame) (prefix : string) : option frame :=
  add_prefix prefix <$> groupby_agg mibig_key mibig_fields mibig.

Definition _aggregate_mibig (table mibig : frame) (col prefix : string)
    : option frame :=
  agg ← mibig2 mibig prefix;
  merge_left table agg (col +:+ "_no_stereo") (prefix +:+ mibig_key).

(** ** MSI level of the microbial annotation *)

Definition YES : value := Str "YES".

(** The cells tested, in order, by the [if] / [elif] chain of each level. *)
Definition level_2_evidence : list string :=
  ["GNPS_LIB_NPA_compound_id"; "GNPS_LIBA_NPA_compound_id";
   "GNPS_LIB_MIBIG_mibig_accession"; "GNPS_LIBA_MIBIG_mibig_accession"].
Definition level_3_evidence : list string :=
  ["DEREP_NPA_compound_id"; "DEREP+_NPA_compound_id";
   "DEREP_MIBIG_mibig_accession"; "DEREP+_MIBIG_mibig_accession"].
Definition level_4_evidence : list string :=
  ["CSI_NPA_compound_id"; "CSI_MIBIG_mibig_accession"].
Definition level_2_3_evidence : list string :=
  ["GNPS_LIB_NPA_compound_id"; "GNPS_LIBA_NPA_compound_id";
   "DEREP_NPA_compound_id"; "DEREP+_NPA_compound_id";
   "GNPS_LIB_MIBIG_mibig_accession"; "GNPS_LIBA_MIBIG_mibig_accession";
   "DEREP_MIBIG_mibig_accession"; "DEREP+_MIBIG_mibig_accession"].
Definition level_2_3_4_evidence : list string :=
  ["GNPS_LIB_NPA_compound_id"; "GNPS_LIBA_NPA_compound_id";
   "DEREP_NPA_compound_id"; "DEREP+_NPA_compound_id"; "CSI_NPA_compound_id";
   "GNPS_LIB_MIBIG_mibig_accession"; "GNPS_LIBA_MIBIG_mibig_accession";
   "DEREP_MIBIG_mibig_accession"; "DEREP+_MIBIG_mibig_accession";
   "CSI_MIBIG_mibig_accession"].

(** [if row[c1] is not np.nan: 'YES' elif row[c2] is not np.nan: 'YES' ...
    else: np.nan]; a cell after the first hit is not read. *)
Fixpoint first_present (cols : list string) (r : row) (chain : list string)
    : option value :=
  match chain with
  | [] => Some NaN
  | c :: chain' =>
      v ← getitem cols r c;
      if is_not_nan v then Some YES else first_present cols r chain'
  end.

(** What one turn of the loop appends to the five lists. *)
Record levels : Type := Levels {
  level_2 : value; level_3 : value; level_4 : value;
  level_2_3 : value; level_2_3_4 : value }.

Definition tier_row (cols : list string) (r : row) : option levels :=
  a ← first_present cols r level_2_evidence;
  b ← first_present cols r level_3_evidence;
  c ← first_present cols r level_4_evidence;
  ab ← first_present cols r level_2_3_evidence;
  abc ← first_present cols r level_2_3_4_evidence;
  Some (Levels a b c ab abc).

Definition tiering (table : frame) : option frame :=
  ls ← mapM (tier_row (columns table)) (rows table);
  table ← setitem "is_microbial_level_2" (level_2 <$> ls) table;
  table ← setitem "is_microbial_level_3" (level_3 <$> ls) table;
  table ← setitem "is_microbial_level_4" (level_4 <$> ls) table;
  table ← setitem "is_microbial_level_2_3" (level_2_3 <$> ls) table;
  setitem "is_microbial_level_2_3_4" (level_2_3_4 <$> ls) table.

(** ** Annotation tool and accession summary *)

(** The cell tested and the label appended, in the order of the loop body. *)
Definition tool_checks : list (string * string) :=
  [("GNPS_LIB_NPA_npaid", "GNPS_LIB_NPA|");
   ("GNPS_LIBA_NPA_npaid", "GNPS_LIBA_NPA|");
   ("DEREP_NPA_npaid", "DEREP_NPA|");
   ("DEREP+_NPA_npaid", "DEREP+_NPA|");
   ("CSI_NPA_npaid", "CSI_NPA|");
   ("GNPS_LIB_MIBIG_mibig_accession", "GNPS_LIB_MIBIG|");
   ("GNPS_LIBA_MIBIG_mibig_accession", "GNPS_LIBA_MIBIG|");
   ("DEREP_MIBIG_mibig_accession", "DEREP_MIBIG|");
   ("DEREP+_MIBIG_mibig_accession", "DEREP+_MIBIG|");
   ("CSI_MIBIG_mibig_accession", "CSI_MIBIG|")].

(** [v + s] for a string [s]: [TypeError] unless the cell is a string. *)
Definition add_str (v : value) (s : string) : option string :=
  match v with Str x => Some (x +:+ s) | _ => None end.

(** One [if row[c] is not np.nan: element += label; identifier += row[c]+'|'] *)
Definition tool_step (cols : list string) (r : row) (acc : string * string)
    (chk : string * string) : option (string * string) :=
  v ← getitem cols r chk.1;
  if is_not_nan v
  then s ← add_str v "|"; Some (acc.1 +:+ chk.2, acc.2 +:+ s)
  else Some acc.

Fixpoint tool_steps (cols : list string) (r : row) (acc : string * string)
    (checks : list (string * string)) : option (string * string) :=
  match checks with
  | [] => Some acc
  | chk :: checks' =>
      acc' ← tool_step cols r acc chk;
      tool_steps cols r acc' checks'
  end.

(** [element] and [identifier] of a row; both start empty (the first test
    sets them to its label and cell or to the empty string). *)
Definition tool_row (cols : list string) (r : row) : option (string * string) :=
  tool_steps cols r ("", "") tool_checks.

Definition tool_summary (table : frame) : option frame :=
  els ← mapM (tool_row (columns table)) (rows table);
  table ← setitem "is_microbial_tool" (Str <$> els.*1) table;
  setitem "is_microbial_tool_id" (Str <$> els.*2) table.

(** ** Propagation through molecular network families *)

Definition componentindex : string := "GNPS_componentindex".

(** [v is not -1].  CPython keeps a single object for each small integer,
    so on an integer cell the identity test is the comparison with -1; a
    cell that is not an integer is never that object. *)
Definition is_not_minus_one (v : value) : bool :=
  match v with Int z => negb (z =? -1) | _ => true end.

(** The first loop: [propagate_list]. *)
Fixpoint propagate_list (cols : list string) (col : string) (rs : list row)
    : option (list value) :=
  match rs with
  | [] => Some []
  | r :: rs' =>
      v ← getitem cols r col;
      here ← (if is_not_nan v
              then c ← getitem cols r componentindex;
                   Some (if is_not_minus_one c then [c] else [])
              else Some []);
      rest ← propagate_list cols col rs';
      Some (here ++ rest)
  end.

(** One turn of the second loop: what is appended to [propagate_column] and
    to [propagate_componentid]. *)
Definition propagate_row (cols : list string) (plist : list value) (r : row)
    : option (value * value) :=
  c ← getitem cols r componentindex;
  Some (if decide (c ∈ plist) then (YES, c) else (NaN, NaN)).

Definition _propagate_microbial_annotation (table : frame) (col : string)
    : option frame :=
  plist ← propagate_list (columns table) col (rows table);
  marks ← mapM (propagate_row (columns table) plist) (rows table);
  table ← setitem (col +:+ "_network") (marks.*1) table;
  setitem (col +:+ "_networkid") (marks.*2) table.

(** ** The notebook, cell after cell *)

(** Cells 3 to 12: the first blocks, then the ten aggregate-and-merge calls,
    each on the result the one before left in [.merged]. *)
Definition match_databases (features npatlas mibig : frame) : option frame :=
  let npatlas := add_prefix "NPA_" npatlas in
  npatlas ← _prepare_inchikey npatlas "NPA_compound_inchikey";
  features ← _prepare_inchikey features gnps_lib;
  features ← _prepare_inchikey features gnps_liba;
  features ← _prepare_inchikey features derep;
  features ← _prepare_inchikey features derepplus;
  features ← _prepare_inchikey features csi;
  merged ← _aggregate_npatlas features npatlas gnps_lib "GNPS_LIB_";
  merged ← _aggregate_npatlas merged npatlas gnps_liba "GNPS_LIBA_";
  merged ← _aggregate_npatlas merged npatlas derep "DEREP_";
  merged ← _aggregate_npatlas merged npatlas derepplus "DEREP+_";
  merged ← _aggregate_npatlas merged npatlas csi "CSI_";
  let mibig := add_prefix "MIBIG_" mibig in
  merged ← _aggregate_mibig merged mibig gnps_lib "GNPS_LIB_";
  merged ← _aggregate_mibig merged mibig gnps_liba "GNPS_LIBA_";
  merged ← _aggregate_mibig merged mibig derep "DEREP_";
  merged ← _aggregate_mibig merged mibig derepplus "DEREP+_";
  _aggregate_mibig merged mibig csi "CSI_".

(** Cells 13 to 20 on [table = _aggregate_mibig.merged]. *)
Definition annotate (table : frame) : option frame :=
  table ← tiering table;
  table ← tool_summary table;
  table ← _propagate_microbial_annotation table "is_microbial_level_2";
  table ← _propagate_microbial_annotation table "is_microbial_level_3";
  table ← _propagate_microbial_annotation table "is_microbial_level_4";
  table ← _propagate_microbial_annotation table "is_microbial_level_2_3";
  table ← _propagate_microbial_annotation table "is_microbial_level_2_3_4";
  drop_column "Unnamed: 0" table.

Definition notebook (features npatlas mibig : frame) : option frame :=
  table ← match_databases features npatlas mibig;
  annotate table.

(** ** What the notebook prints, and where it writes *)

(** [show_metadata_tools]: the labels that start with the prefix, in the
    order of the columns; the function prints the list. *)
Definition show_metadata_tools (table : frame) (metadata_prefix : string)
    : list string :=
  filter (λ x, String.prefix metadata_prefix x = true) (columns table).

(** [table[(table[c] == 'YES')].shape[0]], the number printed for a level. *)
Definition count_yes (table : frame) (c : string) : option nat :=
  vals ← column table c;
  Some (length (filter (λ v, v = Str "YES") vals)).

(** [s[:-n]] for [n] at least 1: all but the last [n] characters, nothing
    when the string has no more than [n]. *)
Definition drop_last (n : nat) (s : string) : string :=
  let l := String.list_ascii_of_string s in
  String.string_of_list_ascii (take (length l - n) l).

(** [feature_metadata_table[:-4]+'_is_microbial.tsv'] *)
Definition output_name (feature_metadata_table : string) : string :=
  drop_last 4 feature_metadata_table +:+ "_is_microbial.tsv".

(** The path set in the second cell. *)
Definition feature_metadata_table : string :=
  "annotations_2_1/CMN_metabo_feature_metadata_filtered_consolidated.tsv".

(** ** A worked run *)

Module Demo.

Definition features : frame :=
  Frame ["Unnamed: 0"; gnps_lib; gnps_liba; derep; derepplus; csi; componentindex]
    [ {[ "Unnamed: 0" := Int 0; gnps_lib := Str "ABCDEFGHIJKLMN-UHFFFAOYSA-N";
         componentindex := Int 7 ]};
      {[ "Unnamed: 0" := Int 1; componentindex := Int 7 ]};
      {[ "Unnamed: 0" := Int 2; csi := Str "ZZZZZZZZZZZZZZ";
         componentindex := Int (-1) ]};
      {[ "Unnamed: 0" := Int 3; componentindex := Int (-1) ]} ].

Definition npatlas : frame :=
  Frame ["npaid"; "compound_id"; "compound_names"; "origin_type"; "genus";
         "origin_species"; "mibig_ids"; "compound_inchikey"]
    [ {[ "npaid" := Str "NPA12345"; "compound_id" := Int 12345;
         "compound_names" := Str "Examplamycin";
         "compound_inchikey" := Str "ABCDEFGHIJKLMN-XXXXXXXXXX-X" ]};
      {[ "npaid" := Str "NPA00007"; "compound_id" := Int 7;
         "compound_names" := Str "epi-Examplamycin"; "genus" := Str "Streptomyces";
         "compound_inchikey" := Str "ABCDEFGHIJKLMN-YYYYYYYYYY-Y" ]} ].

Definition mibig : frame :=
  Frame ["mibig_accession"; "organism_name"; "compound_name"; "ncbi_tax_id";
         "no_stereo_inchikey"]
    [ {[ "mibig_accession" := Str "BGC0000001"; "organism_name" := Str "Nostoc";
         "compound_name" := Str "zetamide"; "ncbi_tax_id" := Int 1177;
         "no_stereo_inchikey" := Str "ZZZZZZZZZZZZZZ" ]} ].

(** The reference frames as the merges get them. *)
Definition npatlas_ref : frame :=
  default (Frame [] [])
    (_prepare_inchikey (add_prefix "NPA_" npatlas) "NPA_compound_inchikey").

Definition mibig_ref : frame := add_prefix "MIBIG_" mibig.

(** The table after the ten merges, after the tiering loop, and as it is
    written out. *)
Definition merged : frame :=
  default (Frame [] []) (match_databases features npatlas mibig).

Definition tiered : frame := default (Frame [] []) (tiering merged).

Definition out : frame :=
  default (Frame [] []) (notebook features npatlas mibig).

(** The feature table with its five first-block columns, the NPAtlas
    reference aggregated for the library matches, and the first merge. *)
Definition prepared : frame :=
  default (Frame [] [])
    (features ← _prepare_inchikey features gnps_lib;
     features ← _prepare_inchikey features gnps_liba;
     features ← _prepare_inchikey features derep;
     features ← _prepare_inchikey features derepplus;
     _prepare_inchikey features csi).

Definition lib_aggregated : frame :=
  default (Frame [] []) (npatlas2 npatlas_ref "GNPS_LIB_").

Definition lib_merged : frame :=
  default (Frame [] []) (_aggregate_npatlas prepared npatlas_ref gnps_lib "GNPS_LIB_").

(** The cells of row [i] of a frame under the labels [cs]. *)
Definition cells (f : frame) (i : nat) (cs : list string) : option (list value) :=
  (λ r : row, (λ c, r !!! c) <$> cs) <$> rows f !! i.

End Demo.

(** * Vocabulary of the properties *)

(** ** Strings *)

(** [c in s] for a character [c] *)
Fixpoint contains (c : ascii) (s : string) : bool :=
  match s with
  | EmptyString => false
  | String a s' => if decide (a = c) then true else contains c s'
  end.

(** [s.endswith(String c "")] *)
Fixpoint ends_with (c : ascii) (s : string) : bool :=
  match s with
  | EmptyString => false
  | String a EmptyString => bool_decide (a = c)
  | String _ s' => ends_with c s'
  end.

(** ** Tiers *)

(** What an [if] / [elif] chain over [chain] leaves in the list: ['YES'] when
    a cell of the chain is present, missing otherwise. *)
Definition marker (chain : list string) (r : row) : value :=
  if decide (Exists (λ c, r !!! c ≠ NaN) chain) then YES else NaN.

(** The row after the five column assignments. *)
Definition tier_columns (r : row) : row :=
  <["is_microbial_level_2_3_4" := marker level_2_3_4_evidence r]>
  (<["is_microbial_level_2_3" := marker level_2_3_evidence r]>
  (<["is_microbial_level_4" := marker level_4_evidence r]>
  (<["is_microbial_level_3" := marker level_3_evidence r]>
  (<["is_microbial_level_2" := marker level_2_evidence r]> r)))).

Definition tier_labels (cols : list string) : list string :=
  add_column (add_column (add_column (add_column (add_column cols
    "is_microbial_level_2") "is_microbial_level_3") "is_microbial_level_4")
    "is_microbial_level_2_3") "is_microbial_level_2_3_4".

(** A tier column [name] of a row against the evidence cells of its chain. *)
Definition tier_holds (name : string) (chain : list string) (r : row) : Prop :=
  (r !!! name = Str "YES" ↔ ∃ c, c ∈ chain ∧ r !!! c ≠ NaN) ∧
  (r !!! name = NaN ↔ ∀ c, c ∈ chain → r !!! c = NaN) ∧
  (r !!! name = Str "YES" ∨ r !!! name = NaN).

(** ** Tool and identifier summary *)

(** The ten (tool, database) combinations in the order the loop tests them:
    the cell tested and the name of the combination; the label the loop
    appends is that name followed by the delimiter. *)
Definition tool_combinations : list (string * string) :=
  [("GNPS_LIB_NPA_npaid", "GNPS_LIB_NPA");
   ("GNPS_LIBA_NPA_npaid", "GNPS_LIBA_NPA");
   ("DEREP_NPA_npaid", "DEREP_NPA");
   ("DEREP+_NPA_npaid", "DEREP+_NPA");
   ("CSI_NPA_npaid", "CSI_NPA");
   ("GNPS_LIB_MIBIG_mibig_accession", "GNPS_LIB_MIBIG");
   ("GNPS_LIBA_MIBIG_mibig_accession", "GNPS_LIBA_MIBIG");
   ("DEREP_MIBIG_mibig_accession", "DEREP_MIBIG");
   ("DEREP+_MIBIG_mibig_accession", "DEREP+_MIBIG");
   ("CSI_MIBIG_mibig_accession", "CSI_MIBIG")].

Definition with_delimiter (cn : string * string) : string * string :=
  (cn.1, cn.2 +:+ "|").

(** The combinations that matched on a row, in order: the name of the
    combination and the cell found. *)
Definition matches_of (r : row) (combos : list (string * string))
    : list (string * string) :=
  omap (λ cn, match r !!! cn.1 with Str s => Some (cn.2, s) | _ => None end)
       combos.

Definition matches (r : row) : list (string * string) :=
  matches_of r tool_combinations.

(** The entries of a list, each followed by the delimiter. *)
Definition delimited (l : list string) : string :=
  foldr (λ x acc, x +:+ "|" +:+ acc) "" l.

(** A cell of an accession column is a string or missing: so the merges
    leave them. *)
Definition string_or_missing (v : value) : Prop :=
  match v with Int _ => False | _ => True end.

#[local] Instance string_or_missing_dec v : Decision (string_or_missing v).
Proof. destruct v; simpl; apply _. Defined.

(** The row after the two column assignments. *)
Definition tool_columns (r : row) : row :=
  <["is_microbial_tool_id" := Str (delimited (matches r).*2)]>
  (<["is_microbial_tool" := Str (delimited (matches r).*1)]> r).

(** ** Propagation *)

(** The rows that feed [propagate_list]: positive on the column, and their
    component index not -1. *)
Definition is_source (col : string) (r : row) : Prop :=
  r !!! col ≠ NaN ∧ r !!! componentindex ≠ Int (-1).

#[local] Instance is_source_dec col r : Decision (is_source col r).
Proof. unfold is_source. apply _. Defined.

Definition sources (col : string) (rs : list row) : list value :=
  (λ r : row, r !!! componentindex) <$> filter (is_source col) rs.

(** The row after the two column assignments. *)
Definition network_columns (col : string) (plist : list value) (r : row) : row :=
  <[col +:+ "_networkid" :=
      if decide (r !!! componentindex ∈ plist) then r !!! componentindex else NaN]>
  (<[col +:+ "_network" :=
      if decide (r !!! componentindex ∈ plist) then YES else NaN]> r).

(** ** Aggregation and merges *)

(** What the aggregated rows [out] (labels prefixed) are to the rows [ref]
    of the reference: one row per key; a key for each non-missing key of
    the reference; and in each field the [str] of the cells of all rows of
    that key, in their order, joined by ['|'].  The group of a key is not
    empty, and where none of the joined entries holds a ['|'] splitting the
    field at ['|'] gives them back, one segment per row of the group. *)
Definition aggregated (key : string) (fields : list string) (prefix : string)
    (ref out : list row) : Prop :=
  NoDup ((λ o : row, o !!! (prefix +:+ key)) <$> out) ∧
  (∀ k, k ∈ (λ o : row, o !!! (prefix +:+ key)) <$> out ↔
        k ≠ NaN ∧ ∃ r : row, r ∈ ref ∧ r !!! key = k) ∧
  ∀ o : row, o ∈ out →
    let group := filter (λ r : row, r !!! key = o !!! (prefix +:+ key)) ref in
    group ≠ [] ∧
    ∀ fld, fld ∈ fields →
      let entries := (λ r : row, str (r !!! fld)) <$> group in
      o !!! (prefix +:+ fld) = Str (join "|" entries) ∧
      length entries = length group ∧
      (Forall (λ x, contains "|" x = false) entries →
       split "|" (join "|" entries) = entries).

(** The labels the ten merges append, in order. *)
Definition tool_prefixes : list string :=
  ["GNPS_LIB_"; "GNPS_LIBA_"; "DEREP_"; "DEREP+_"; "CSI_"].

Definition reference_labels : list string :=
  (prefix ← tool_prefixes; String.app prefix <$> npatlas_key :: npatlas_fields) ++
  (prefix ← tool_prefixes; String.app prefix <$> mibig_key :: mibig_fields).

(** For each tool, the NPAtlas cell the summary loop tests and the one the
    tiering loop tests: two fields of the same merge. *)
Definition npatlas_cell_pairs : list (string * string) :=
  [("GNPS_LIB_NPA_npaid", "GNPS_LIB_NPA_compound_id");
   ("GNPS_LIBA_NPA_npaid", "GNPS_LIBA_NPA_compound_id");
   ("DEREP_NPA_npaid", "DEREP_NPA_compound_id");
   ("DEREP+_NPA_npaid", "DEREP+_NPA_compound_id");
   ("CSI_NPA_npaid", "CSI_NPA_compound_id")].

(** The labels the notebook adds to the feature table besides those of the
    merges: the five first-block columns, and the seventeen columns of the
    loops. *)
Definition first_block_labels : list string :=
  (λ c, c +:+ "_no_stereo") <$> [gnps_lib; gnps_liba; derep; derepplus; csi].

Definition derived_labels : list string :=
  ["is_microbial_level_2"; "is_microbial_level_3"; "is_microbial_level_4";
   "is_microbial_level_2_3"; "is_microbial_level_2_3_4";
   "is_microbial_tool"; "is_microbial_tool_id";
   "is_microbial_level_2_network"; "is_microbial_level_2_networkid";
   "is_microbial_level_3_network"; "is_microbial_level_3_networkid";
   "is_microbial_level_4_network"; "is_microbial_level_4_networkid";
   "is_microbial_level_2_3_network"; "is_microbial_level_2_3_networkid";
   "is_microbial_level_2_3_4_network"; "is_microbial_level_2_3_4_networkid"].

(** The columns the notebook reads in the two reference files, as they are
    labelled there. *)
Definition npatlas_raw : list string :=
  ["compound_inchikey"; "npaid"; "compound_id"; "compound_names"; "origin_type";
   "genus"; "origin_species"; "mibig_ids"].

Definition mibig_raw : list string :=
  ["no_stereo_inchikey"; "mibig_accession"; "organism_name"; "compound_name";
   "ncbi_tax_id"].

(** What a table must offer for the remaining cells to run: the first-block
    columns, the component index and the index column, and cells under the
    ten accession labels that are strings or missing. *)
Definition ready (table : frame) : Prop :=
  Forall (λ c, c ∈ columns table)
    (first_block_labels ++ [componentindex; "Unnamed: 0"]) ∧
  Forall (λ l : row,
    Forall (λ cn, string_or_missing (l !!! cn.1)) tool_combinations)
    (rows table).

(** The row a left row is extended with. *)
Definition joined (right : frame) (right_on : string) (v : value) : row :=
  match filter (λ m : row, m !!! right_on = v) (rows right) with
  | m :: _ => m
  | [] => nan_row (columns right)
  end.

(** One aggregate-and-merge call keeps the rows of the table, one for one,
    each with its cells and more. *)
Definition extends (table out : frame) : Prop :=
  length (rows out) = length (rows table) ∧
  (∀ c, c ∈ columns table → c ∈ columns out) ∧
  ∀ i (r : row), rows table !! i = Some r →
    ∃ r' : row, rows out !! i = Some r' ∧ r ⊆ r'.

(** * Properties *)

(** A closed decidable proposition, settled by evaluating its decision. *)
Ltac by_compute := apply (bool_decide_unpack _); vm_compute; exact I.

(** Reading a cell through the assignments of other columns. *)
Ltac read_insert :=
  repeat (rw lookup_total_insert_ne; [|done]); rw ?lookup_total_insert_eq.

(** ** Strings: [+], [split] and [join] *)

Section strings.
Implicit Types (s p rest : string) (c sep : ascii).

Lemma string_app_nil_l s : "" +:+ s = s.
Proof. reflexivity. Qed.

Lemma string_app_cons c s1 s2 : String c s1 +:+ s2 = String c (s1 +:+ s2).
Proof. reflexivity. Qed.

Lemma string_app_nil_r s : s +:+ "" = s.
Proof. induction s as [|c s IH]; [done|]. by rw string_app_cons IH. Qed.

Lemma string_app_assoc s1 s2 s3 : (s1 +:+ s2) +:+ s3 = s1 +:+ s2 +:+ s3.
Proof.
  induction s1 as [|c s1 IH]; [done|]. by rw !string_app_cons IH.
Qed.

Lemma string_app_ne_self s t : t ≠ "" → s +:+ t ≠ s.
Proof.
  intros Ht Heq. apply Ht. apply (inj (String.app s)).
  by rw string_app_nil_r.
Qed.

Lemma string_app_empty s t : s +:+ t = "" → s = "" ∧ t = "".
Proof. destruct s; [done|]. by rw string_app_cons. Qed.

Lemma contains_app sep s t :
  contains sep (s +:+ t) = contains sep s || contains sep t.
Proof.
  induction s as [|c s IH]; [done|].
  rw string_app_cons /=. by case_decide.
Qed.

Lemma split_not_nil sep s : split sep s ≠ [].
Proof. destruct s as [|c s]; [done|]. simpl. case_decide; [done|]. by destruct (split sep s). Qed.

Lemma split_no_sep sep s : contains sep s = false → split sep s = [s].
Proof.
  induction s as [|c s IH]; [done|]. simpl.
  case_decide; [done|]. intros Hs. by rw IH.
Qed.

(** Up to the first separator: the head of the split. *)
Lemma split_app sep p rest :
  contains sep p = false →
  split sep (p +:+ String sep rest) = p :: split sep rest.
Proof.
  induction p as [|c p IH]; simpl.
  - intros _. by case_decide.
  - case_decide; [done|]. intros Hp.
    by rw IH.
Qed.

Lemma split_head sep s :
  ∃ p tl, split sep s = p :: tl ∧ contains sep p = false ∧
          ((tl = [] ∧ s = p) ∨
           ∃ rest, s = p +:+ String sep rest ∧ tl = split sep rest).
Proof.
  induction s as [|c s (p & tl & Hsplit & Hp & Hs)].
  - exists "", []. naive_solver.
  - simpl. case_decide as Hc.
    + subst c. exists "", (split sep s). split_and!; [done..|].
      right. by exists s.
    + rw Hsplit. exists (String c p), tl. split_and!; [done|..].
      * simpl. by case_decide.
      * destruct Hs as [[-> ->]|(rest & -> & ->)]; [by left|].
        right. by exists rest.
Qed.

Lemma join_cons (d x y : string) (l : list string) :
  join d (x :: y :: l) = x +:+ d +:+ join d (y :: l).
Proof. reflexivity. Qed.

(** Splitting a join gives the joined entries back when none holds the
    separator. *)
Lemma split_join sep (l : list string) :
  l ≠ [] → Forall (λ x, contains sep x = false) l →
  split sep (join (String sep "") l) = l.
Proof.
  intros Hne Hl. induction Hl as [|x l Hx Hl IH]; [done|].
  destruct l as [|y l]; [by apply split_no_sep|].
  by rw join_cons split_app // IH.
Qed.

Lemma length_split sep p rest :
  contains sep p = false →
  length (split sep (p +:+ String sep rest)) = S (length (split sep rest)).
Proof. intros Hp. by rw split_app. Qed.

Lemma ends_with_app c s : ends_with c (s +:+ String c "") = true.
Proof.
  induction s as [|a s IH].
  - simpl. by apply bool_decide_eq_true.
  - rw string_app_cons. simpl. rw IH. by destruct s.
Qed.

Lemma ends_with_app_r c s t : t ≠ "" → ends_with c (s +:+ t) = ends_with c t.
Proof.
  intros Ht. induction s as [|a s IH]; [done|].
  rw string_app_cons. simpl. rw IH.
  destruct (s +:+ t) eqn:Heq; [|done].
  by apply string_app_empty in Heq as [_ ?].
Qed.
End strings.

Example split_inchikey :
  split "-"%char "ABCDEFGHIJKLMN-UHFFFAOYSA-N" = ["ABCDEFGHIJKLMN"; "UHFFFAOYSA"; "N"].
Proof. reflexivity. Qed.

Example str_int : str (Int (-12)) = "-12" ∧ str (Int 0) = "0" ∧ str NaN = "nan".
Proof. done. Qed.

(** ** Frames: reading and writing columns *)

Section frames.
Implicit Types (f table : frame) (r : row) (c col : string).

Lemma getitem_Some cols r c : c ∈ cols → getitem cols r c = Some (r !!! c).
Proof. intros Hc. unfold getitem. by rw decide_True. Qed.

Lemma getitem_inv cols r c v : getitem cols r c = Some v → c ∈ cols ∧ v = r !!! c.
Proof. unfold getitem. case_decide; naive_solver. Qed.

Lemma zip_with_fmap_diag {A B C D} (g : B → C → D) (h : A → B) (k : A → C)
    (l : list A) :
  zip_with g (h <$> l) (k <$> l) = (λ x, g (h x) (k x)) <$> l.
Proof. induction l; f_equal/=; auto. Qed.

(** Writing a column computed row by row. *)
Lemma setitem_fmap {A} (l : list A) (h : A → row) (g : A → value) cols c :
  setitem c (g <$> l) (Frame cols (h <$> l)) =
  Some (Frame (add_column cols c) ((λ x, <[c := g x]> (h x)) <$> l)).
Proof.
  unfold setitem. simpl. rw decide_True; [|by rw !length_fmap].
  by rw zip_with_fmap_diag.
Qed.

Lemma setitem_fmap_id (l : list row) (g : row → value) cols c :
  setitem c (g <$> l) (Frame cols l) =
  Some (Frame (add_column cols c) ((λ r, <[c := g r]> r) <$> l)).
Proof. by rw -{2}(list_fmap_id l) setitem_fmap. Qed.

Lemma elem_of_add_column cols c c' : c' ∈ cols → c' ∈ add_column cols c.
Proof. unfold add_column. case_decide; set_solver. Qed.

Lemma elem_of_add_column_new cols c : c ∈ add_column cols c.
Proof. unfold add_column. case_decide; set_solver. Qed.

Lemma mapM_fmap_total {A B} (g : A → option B) (h : A → B) (l : list A) :
  (∀ x, x ∈ l → g x = Some (h x)) → mapM g l = Some (h <$> l).
Proof.
  intros Hg. apply mapM_Some_2. induction l as [|x l IH]; simpl; constructor.
  - apply Hg. set_solver.
  - apply IH. intros y Hy. apply Hg. set_solver.
Qed.
End frames.

(** ** The identifier normaliser *)

Lemma no_stereo_Str s :
  ∃ p, no_stereo (Str s) = Str p ∧ contains "-" p = false ∧
       (s = p ∨ ∃ rest, s = p +:+ "-" +:+ rest).
Proof.
  destruct (split_head "-" s) as (p & tl & Hsplit & Hp & Hs).
  exists p. simpl. rw Hsplit. split_and!; [done..|].
  destruct Hs as [[_ ->]|(rest & -> & _)]; [by left|]. right. by exists rest.
Qed.

Lemma no_stereo_idemp v : no_stereo (no_stereo v) = no_stereo v.
Proof.
  destruct v as [|s|z]; [done| |done].
  destruct (no_stereo_Str s) as (p & -> & Hp & _).
  simpl. by rw split_no_sep.
Qed.

Lemma prepare_inchikey_total table col :
  col ∈ columns table →
  _prepare_inchikey table col =
  Some (Frame (add_column (columns table) (col +:+ "_no_stereo"))
          ((λ r : row, <[col +:+ "_no_stereo" := no_stereo (r !!! col)]> r)
             <$> rows table)).
Proof.
  intros Hcol. unfold _prepare_inchikey, column. rw decide_True //=.
  destruct table as [cols rs]; simpl.
  rw -list_fmap_compose.
  by rw setitem_fmap_id.
Qed.


(** ** The tiering loop *)

Section tiering.
Implicit Types (r : row) (chain cols : list string).

Lemma is_not_nan_true v : is_not_nan v = true ↔ v ≠ NaN.
Proof. by destruct v. Qed.

Lemma first_present_total cols r chain :
  Forall (λ c, c ∈ cols) chain →
  first_present cols r chain = Some (marker chain r).
Proof.
  unfold marker. induction 1 as [|c chain Hc _ IH]; simpl.
  - done.
  - rw getitem_Some //=. destruct (is_not_nan (r !!! c)) eqn:Hv.
    + rw decide_True //. left. by apply is_not_nan_true.
    + rw IH. apply not_true_iff_false in Hv. rw is_not_nan_true in Hv.
      case_decide as Hex.
      * rw decide_True //. by right.
      * rw decide_False //. inversion 1; naive_solver.
Qed.

Lemma marker_YES chain r :
  marker chain r = YES ↔ ∃ c, c ∈ chain ∧ r !!! c ≠ NaN.
Proof. unfold marker. rw -Exists_exists. by case_decide. Qed.

Lemma marker_NaN chain r :
  marker chain r = NaN ↔ ∀ c, c ∈ chain → r !!! c = NaN.
Proof.
  unfold marker. case_decide as Hex.
  - split; [done|]. intros Hall. apply Exists_exists in Hex as (c & Hc & Hv).
    by destruct Hv; apply Hall.
  - split; [|done]. intros _ c Hc. destruct (decide (r !!! c = NaN)); [done|].
    destruct Hex. apply Exists_exists. eauto.
Qed.

Lemma marker_cases chain r : marker chain r = YES ∨ marker chain r = NaN.
Proof. unfold marker. case_decide; auto. Qed.

Lemma marker_app chain1 chain2 r :
  marker (chain1 ++ chain2) r = YES ↔
  marker chain1 r = YES ∨ marker chain2 r = YES.
Proof.
  rw !marker_YES. split.
  - intros (c & [Hc|Hc]%elem_of_app & Hv); eauto.
  - intros [(c & Hc & Hv)|(c & Hc & Hv)]; exists c; rw elem_of_app; auto.
Qed.

(** The marker only depends on which cells are tested, not on their order. *)
Lemma marker_perm chain1 chain2 r :
  chain1 ≡ₚ chain2 → marker chain1 r = marker chain2 r.
Proof.
  intros Hp. unfold marker. apply decide_ext. by rw Hp.
Qed.

Lemma level_2_3_perm : level_2_3_evidence ≡ₚ level_2_evidence ++ level_3_evidence.
Proof.
  apply NoDup_Permutation; [by_compute..|].
  intros c. unfold level_2_3_evidence, level_2_evidence, level_3_evidence.
  simpl. rw !elem_of_cons. tauto.
Qed.

Lemma level_2_3_4_perm :
  level_2_3_4_evidence ≡ₚ
  level_2_evidence ++ level_3_evidence ++ level_4_evidence.
Proof.
  apply NoDup_Permutation; [by_compute..|].
  intros c. unfold level_2_3_4_evidence, level_2_evidence, level_3_evidence,
    level_4_evidence. simpl. rw !elem_of_cons. tauto.
Qed.

Lemma tier_row_total cols r :
  Forall (λ c, c ∈ cols) level_2_3_4_evidence →
  tier_row cols r =
  Some (Levels (marker level_2_evidence r) (marker level_3_evidence r)
          (marker level_4_evidence r) (marker level_2_3_evidence r)
          (marker level_2_3_4_evidence r)).
Proof.
  intros Hcols. unfold tier_row.
  rw !first_present_total //;
    (eapply Forall_forall; intros c Hc;
     eapply (proj1 (Forall_forall _ _) Hcols);
     revert c Hc; apply Forall_forall;
     by_compute).
Qed.

Lemma tiering_total (table : frame) :
  Forall (λ c, c ∈ columns table) level_2_3_4_evidence →
  tiering table =
  Some (Frame (tier_labels (columns table)) (tier_columns <$> rows table)).
Proof.
  intros Hcols. unfold tiering.
  rw (mapM_fmap_total _ _ _ (λ r _, tier_row_total (columns table) r Hcols)) /=.
  destruct table as [cols rs]; simpl. rw -!list_fmap_compose.
  rw setitem_fmap_id /=. by do 4 rw setitem_fmap /=.
Qed.

Lemma tier_columns_evidence r c :
  c ∈ level_2_3_4_evidence → tier_columns r !!! c = r !!! c.
Proof.
  revert c. apply Forall_forall. unfold tier_columns.
  repeat constructor; by rw !lookup_total_insert_ne.
Qed.

Lemma marker_tier_columns chain r :
  chain ⊆ level_2_3_4_evidence →
  marker chain (tier_columns r) = marker chain r.
Proof.
  intros Hsub. unfold marker. apply decide_ext. rw !Exists_exists.
  split; intros (c & Hc & Hv); exists c;
    (split; [done|]); by rw ?tier_columns_evidence // in Hv |- *; auto.
Qed.
End tiering.

Section tier_columns.
Implicit Types r : row.

Lemma tier_columns_level_2 r :
  tier_columns r !!! "is_microbial_level_2" = marker level_2_evidence r.
Proof. unfold tier_columns. by read_insert. Qed.

Lemma tier_columns_level_3 r :
  tier_columns r !!! "is_microbial_level_3" = marker level_3_evidence r.
Proof. unfold tier_columns. by read_insert. Qed.

Lemma tier_columns_level_4 r :
  tier_columns r !!! "is_microbial_level_4" = marker level_4_evidence r.
Proof. unfold tier_columns. by read_insert. Qed.

Lemma tier_columns_level_2_3 r :
  tier_columns r !!! "is_microbial_level_2_3" = marker level_2_3_evidence r.
Proof. unfold tier_columns. by read_insert. Qed.

Lemma tier_columns_level_2_3_4 r :
  tier_columns r !!! "is_microbial_level_2_3_4" = marker level_2_3_4_evidence r.
Proof. unfold tier_columns. by read_insert. Qed.
End tier_columns.

Lemma tier_holds_marker name chain (r : row) :
  chain ⊆ level_2_3_4_evidence →
  tier_columns r !!! name = marker chain r →
  tier_holds name chain (tier_columns r).
Proof.
  intros Hsub Hname. unfold tier_holds.
  rw Hname -(marker_tier_columns chain r) //.
  split_and!; [apply marker_YES|apply marker_NaN|apply marker_cases].
Qed.

(** C1.  On a table that has the ten evidence columns the tiering loop
    succeeds, and in every row of its result [is_microbial_level_2_3] holds
    ['YES'] exactly when [is_microbial_level_2] or [is_microbial_level_3]
    does, and [is_microbial_level_2_3_4] exactly when one of
    [is_microbial_level_2], [is_microbial_level_3], [is_microbial_level_4]
    does. *)
Theorem combined_levels_are_unions (table : frame) :
  Forall (λ c, c ∈ columns table) level_2_3_4_evidence →
  ∃ out, tiering table = Some out ∧
    length (rows out) = length (rows table) ∧
    ∀ r : row, r ∈ rows out →
      (r !!! "is_microbial_level_2_3" = Str "YES" ↔
         r !!! "is_microbial_level_2" = Str "YES" ∨
         r !!! "is_microbial_level_3" = Str "YES") ∧
      (r !!! "is_microbial_level_2_3_4" = Str "YES" ↔
         r !!! "is_microbial_level_2" = Str "YES" ∨
         r !!! "is_microbial_level_3" = Str "YES" ∨
         r !!! "is_microbial_level_4" = Str "YES").
Proof.
  intros Hcols. eexists. split; [by apply tiering_total|]. simpl.
  split; [by rw length_fmap|].
  intros r' (r & -> & _)%list_elem_of_fmap.
  rw tier_columns_level_2 tier_columns_level_3 tier_columns_level_4
    tier_columns_level_2_3 tier_columns_level_2_3_4.
  rw (marker_perm _ _ r level_2_3_perm) (marker_perm _ _ r level_2_3_4_perm).
  by rw !marker_app.
Qed.

(** C2.  On a table that has the ten evidence columns the tiering loop
    succeeds and leaves the evidence cells as they were; in every row each
    tier column holds ['YES'] exactly when one of the evidence cells of its
    chain is present, and is missing exactly when all of them are missing:
    it never holds anything else. *)
Theorem tier_marker_iff_evidence (table : frame) :
  Forall (λ c, c ∈ columns table) level_2_3_4_evidence →
  ∃ out, tiering table = Some out ∧
    length (rows out) = length (rows table) ∧
    ∀ i (r : row), rows table !! i = Some r →
      ∃ r' : row, rows out !! i = Some r' ∧
        (∀ c, c ∈ level_2_3_4_evidence → r' !!! c = r !!! c) ∧
        tier_holds "is_microbial_level_2" level_2_evidence r' ∧
        tier_holds "is_microbial_level_3" level_3_evidence r' ∧
        tier_holds "is_microbial_level_4" level_4_evidence r' ∧
        tier_holds "is_microbial_level_2_3" level_2_3_evidence r' ∧
        tier_holds "is_microbial_level_2_3_4" level_2_3_4_evidence r'.
Proof.
  intros Hcols. eexists. split; [by apply tiering_total|]. simpl.
  split; [by rw length_fmap|].
  intros i r Hr. exists (tier_columns r). rw list_lookup_fmap Hr /=.
  split; [done|]. split; [by intros c Hc; apply tier_columns_evidence|].
  split_and!; apply tier_holds_marker;
    first [ by intros c Hc; revert c Hc; apply Forall_forall; by_compute
          | apply tier_columns_level_2 | apply tier_columns_level_3
          | apply tier_columns_level_4 | apply tier_columns_level_2_3
          | apply tier_columns_level_2_3_4 ].
Qed.

(** ** The tool and identifier summary *)

Lemma tool_checks_combinations : tool_checks = with_delimiter <$> tool_combinations.
Proof. reflexivity. Qed.

Section tool_summary.
Implicit Types (r : row) (cols : list string) (combos : list (string * string)).

Lemma delimited_cons x l : delimited (x :: l) = x +:+ "|" +:+ delimited l.
Proof. reflexivity. Qed.

Lemma tool_steps_total cols r combos acc :
  Forall (λ cn, cn.1 ∈ cols ∧ string_or_missing (r !!! cn.1)) combos →
  tool_steps cols r acc (with_delimiter <$> combos) =
  Some (acc.1 +:+ delimited (matches_of r combos).*1,
        acc.2 +:+ delimited (matches_of r combos).*2).
Proof.
  intros Hcombos. revert acc.
  induction Hcombos as [|[c n] combos [Hc Hv] _ IH]; intros [e i]; simpl.
  { by rw !string_app_nil_r. }
  unfold tool_step, matches_of. simpl in *. rw getitem_Some //=.
  destruct (r !!! c) as [|s|z]; simpl; [|by rw IH /= !string_app_assoc|done].
  apply IH.
Qed.

Lemma tool_row_total cols r :
  Forall (λ cn, cn.1 ∈ cols ∧ string_or_missing (r !!! cn.1)) tool_combinations →
  tool_row cols r =
  Some (delimited (matches r).*1, delimited (matches r).*2).
Proof.
  intros Hcombos. unfold tool_row.
  by rw tool_checks_combinations tool_steps_total.
Qed.

Lemma tool_summary_total (table : frame) :
  Forall (λ cn, cn.1 ∈ columns table) tool_combinations →
  Forall (λ r : row,
    Forall (λ cn, string_or_missing (r !!! cn.1)) tool_combinations)
    (rows table) →
  tool_summary table =
  Some (Frame (add_column (add_column (columns table) "is_microbial_tool")
                 "is_microbial_tool_id")
          (tool_columns <$> rows table)).
Proof.
  intros Hcols Hcells. unfold tool_summary.
  rw (mapM_fmap_total _
        (λ r, (delimited (matches r).*1, delimited (matches r).*2)));
    last first.
  { intros r Hr. apply tool_row_total.
    rw Forall_forall in Hcells. specialize (Hcells r Hr).
    rw !Forall_forall in Hcols Hcells |- *. auto. }
  destruct table as [cols rs]. simpl. rw -!list_fmap_compose.
  rw setitem_fmap_id /=. by rw setitem_fmap.
Qed.

Lemma split_delimited (l : list string) :
  Forall (λ x, contains "|" x = false) l →
  split "|" (delimited l) = l ++ [""].
Proof.
  induction 1 as [|x l Hx _ IH]; [done|].
  by rw delimited_cons (split_app "|" x) // IH.
Qed.

Lemma matches_of_names r combos :
  Forall (λ cn, contains "|" cn.2 = false) combos →
  Forall (λ x, contains "|" x = false) (matches_of r combos).*1.
Proof.
  induction 1 as [|[c n] combos Hn _ IH]; [done|].
  unfold matches_of. simpl. destruct (r !!! c); simpl; auto.
Qed.

Lemma matches_names r : Forall (λ x, contains "|" x = false) (matches r).*1.
Proof. apply matches_of_names. by_compute. Qed.

Lemma matches_of_nil r combos :
  matches_of r combos = [] ↔ Forall (λ cn, ∀ s, r !!! cn.1 ≠ Str s) combos.
Proof.
  induction combos as [|[c n] combos IH]; [done|].
  unfold matches_of in *. simpl. rw Forall_cons -IH. simpl.
  destruct (r !!! c) as [|s|z]; simpl.
  - split; [intros Hnil; split; [done|exact Hnil]|intros [_ Hnil]; exact Hnil].
  - split; [done|]. by intros [Hs _]; destruct (Hs s).
  - split; [intros Hnil; split; [done|exact Hnil]|intros [_ Hnil]; exact Hnil].
Qed.

Lemma delimited_nil_inv l : delimited l = "" → l = [].
Proof.
  destruct l as [|x l]; [done|]. rw delimited_cons.
  intros [_ Hd]%string_app_empty. by rw string_app_cons in Hd.
Qed.

Lemma ends_with_delimited l : l ≠ [] → ends_with "|" (delimited l) = true.
Proof.
  induction l as [|x l IH]; [done|]. intros _. rw delimited_cons.
  destruct l as [|y l].
  - apply (ends_with_app "|" x).
  - rw -(string_app_assoc x "|") ends_with_app_r; [by apply IH|].
    rw delimited_cons. intros [_ Hd]%string_app_empty.
    by rw string_app_cons in Hd.
Qed.
End tool_summary.

Lemma tool_columns_tool (r : row) :
  tool_columns r !!! "is_microbial_tool" = Str (delimited (matches r).*1).
Proof. unfold tool_columns. by read_insert. Qed.

Lemma tool_columns_tool_id (r : row) :
  tool_columns r !!! "is_microbial_tool_id" = Str (delimited (matches r).*2).
Proof. unfold tool_columns. by read_insert. Qed.



(** ** Propagation *)

Section propagation.
Implicit Types (r : row) (rs : list row) (cols : list string) (col : string).

Lemma is_not_minus_one_true v : is_not_minus_one v = true ↔ v ≠ Int (-1).
Proof.
  destruct v as [| |z]; simpl; [done..|].
  rw negb_true_iff Z.eqb_neq. naive_solver.
Qed.

Lemma propagate_list_total cols col rs :
  col ∈ cols → componentindex ∈ cols →
  propagate_list cols col rs = Some (sources col rs).
Proof.
  intros Hcol Hidx. unfold sources.
  induction rs as [|r rs IH]; [done|]. simpl.
  rw !getitem_Some // IH /=. rw filter_cons.
  destruct (is_not_nan (r !!! col)) eqn:Hv; simpl.
  - apply is_not_nan_true in Hv.
    destruct (is_not_minus_one (r !!! componentindex)) eqn:Hc; simpl.
    + apply is_not_minus_one_true in Hc. by rw decide_True.
    + apply not_true_iff_false in Hc. rw is_not_minus_one_true in Hc.
      rw decide_False //. by intros [_ ?].
  - apply not_true_iff_false in Hv. rw is_not_nan_true in Hv.
    rw decide_False //. by intros [? _].
Qed.

Lemma elem_of_sources col rs c :
  c ∈ sources col rs ↔
  c ≠ Int (-1) ∧ ∃ r, r ∈ rs ∧ r !!! componentindex = c ∧ r !!! col ≠ NaN.
Proof.
  unfold sources. rw list_elem_of_fmap. split.
  - intros (r & -> & [[Hv Hc] Hr]%list_elem_of_filter). eauto.
  - intros (Hc & r & Hr & <- & Hv). exists r. split; [done|].
    by apply list_elem_of_filter.
Qed.

Lemma propagate_total (table : frame) col :
  col ∈ columns table → componentindex ∈ columns table →
  _propagate_microbial_annotation table col =
  Some (Frame (add_column (add_column (columns table) (col +:+ "_network"))
                 (col +:+ "_networkid"))
          (network_columns col (sources col (rows table)) <$> rows table)).
Proof.
  intros Hcol Hidx. unfold _propagate_microbial_annotation.
  rw propagate_list_total //=.
  rw (mapM_fmap_total _
        (λ r, if decide (r !!! componentindex ∈ sources col (rows table))
              then (YES, r !!! componentindex) else (NaN, NaN))); last first.
  { intros r _. unfold propagate_row. by rw getitem_Some. }
  destruct table as [cols rs]. simpl. rw -!list_fmap_compose.
  rw setitem_fmap_id /= setitem_fmap. do 2 f_equal.
  apply list_fmap_ext. intros _ r _. unfold network_columns. simpl.
  by case_decide.
Qed.

Lemma network_ne_networkid col : col +:+ "_networkid" ≠ col +:+ "_network".
Proof. by intros ?%(inj (String.app col)). Qed.

Lemma network_columns_network col plist r :
  network_columns col plist r !!! (col +:+ "_network") =
  if decide (r !!! componentindex ∈ plist) then YES else NaN.
Proof.
  unfold network_columns.
  rw lookup_total_insert_ne; [|apply network_ne_networkid].
  by rw lookup_total_insert_eq.
Qed.

Lemma network_columns_networkid col plist r :
  network_columns col plist r !!! (col +:+ "_networkid") =
  if decide (r !!! componentindex ∈ plist) then r !!! componentindex else NaN.
Proof. unfold network_columns. by rw lookup_total_insert_eq. Qed.
End propagation.



(** C5.  On a table that has the tier column and the component index, the
    propagation succeeds; two rows with the same component index, other than
    -1, get the same cell in the tier's [_network] column; a row marked
    there has its own component index in [_networkid]; a row not marked is
    missing in both. *)
Theorem propagation_closure (table : frame) (col : string) :
  col ∈ columns table → componentindex ∈ columns table →
  ∃ out, _propagate_microbial_annotation table col = Some out ∧
    (∀ i j (r1 r2 : row),
       rows table !! i = Some r1 → rows table !! j = Some r2 →
       r1 !!! componentindex = r2 !!! componentindex →
       r1 !!! componentindex ≠ Int (-1) →
       ∃ r1' r2' : row, rows out !! i = Some r1' ∧ rows out !! j = Some r2' ∧
         r1' !!! (col +:+ "_network") = r2' !!! (col +:+ "_network")) ∧
    ∀ i (r : row), rows table !! i = Some r →
      ∃ r' : row, rows out !! i = Some r' ∧
        (r' !!! (col +:+ "_network") = Str "YES" →
           r' !!! (col +:+ "_networkid") = r !!! componentindex) ∧
        (r' !!! (col +:+ "_network") ≠ Str "YES" →
           r' !!! (col +:+ "_network") = NaN ∧
           r' !!! (col +:+ "_networkid") = NaN).
Proof.
  intros Hcol Hidx. eexists. split; [by apply propagate_total|]. simpl. split.
  - intros i j r1 r2 Hr1 Hr2 Heq _. do 2 eexists.
    rw !list_lookup_fmap Hr1 Hr2 /=. split_and!; [done..|].
    by rw !network_columns_network Heq.
  - intros i r Hr. eexists. rw list_lookup_fmap Hr /=. split; [done|].
    rw network_columns_network network_columns_networkid.
    case_decide; naive_solver.
Qed.

(** ** Aggregation of a reference database *)

Section aggregation.
Implicit Types (r : row) (rs : list row) (key fld prefix : string)
  (fields : list string).

Lemma NoDup_group_keys key rs : NoDup (group_keys key rs).
Proof.
  unfold group_keys. rw merge_sort_Permutation. apply NoDup_remove_dups.
Qed.

Lemma elem_of_group_keys key rs k :
  k ∈ group_keys key rs ↔ k ≠ NaN ∧ ∃ r, r ∈ rs ∧ r !!! key = k.
Proof.
  unfold group_keys.
  rw merge_sort_Permutation elem_of_remove_dups list_elem_of_filter
    list_elem_of_fmap.
  split.
  - intros (Hk & r & -> & Hr). eauto.
  - intros (Hk & r & Hr & <-). eauto.
Qed.

Lemma agg_row_key key fields rs k : agg_row key fields rs k !!! key = k.
Proof. unfold agg_row. by rw lookup_total_insert_eq. Qed.

Lemma agg_row_field key fields rs k fld :
  fld ∈ fields → fld ≠ key →
  agg_row key fields rs k !!! fld = agg_join fld (group_rows key k rs).
Proof.
  intros Hfld Hne. unfold agg_row. rw lookup_total_insert_ne //.
  rw lookup_total_alt.
  rw (elem_of_list_to_map_1' _ fld (agg_join fld (group_rows key k rs))) //.
  - by intros y (fld' & [= <- ->] & _)%list_elem_of_fmap.
  - apply list_elem_of_fmap. by exists fld.
Qed.

Lemma lookup_total_prefix prefix r c :
  kmap (M2 := gmap string) (String.app prefix) r !!! (prefix +:+ c) = r !!! c.
Proof. by rw !lookup_total_alt lookup_kmap. Qed.

Lemma groupby_agg_aggregated key fields prefix (ref : frame) :
  key ∉ fields →
  Forall (λ c, c ∈ columns ref) (key :: fields) →
  ∃ out, add_prefix prefix <$> groupby_agg key fields ref = Some out ∧
    columns out = String.app prefix <$> (key :: fields) ∧
    aggregated key fields prefix (rows ref) (rows out).
Proof.
  intros Hkey Hcols. unfold groupby_agg. rw decide_True //=.
  eexists. split; [done|]. split; [done|]. simpl.
  assert (∀ l : list value,
    (λ o : row, o !!! (prefix +:+ key)) <$>
      ((λ r : row, kmap (M2 := gmap string) (String.app prefix) r) <$>
         (agg_row key fields (rows ref) <$> l)) = l) as Hkeys.
  { intros l. rw -!list_fmap_compose -{2}(list_fmap_id l).
    apply list_fmap_ext. intros _ k _.
    simpl. by rw lookup_total_prefix agg_row_key. }
  split_and!.
  - rw Hkeys. apply NoDup_group_keys.
  - intros k. rw Hkeys. apply elem_of_group_keys.
  - intros o (o' & -> & (k & -> & Hk)%list_elem_of_fmap)%list_elem_of_fmap.
    simpl. rw lookup_total_prefix agg_row_key. split.
    { apply elem_of_group_keys in Hk as (_ & r & Hr & Hrk).
      intros Hnil. assert (r ∈ @nil row) as Hin; [|by inversion Hin].
      rw -Hnil. by apply list_elem_of_filter. }
    intros fld Hfld.
    rw lookup_total_prefix agg_row_field //; last by intros ->.
    unfold agg_join, group_rows. rw -list_fmap_compose length_fmap.
    split_and!; [done..|]. intros Hentries. apply (split_join "|"); [|done].
    apply elem_of_group_keys in Hk as (_ & r & Hr & Hrk).
    intros Hnil%fmap_nil_inv. assert (r ∈ @nil row) as Hin; [|by inversion Hin].
    rw -Hnil. by apply list_elem_of_filter.
Qed.

Lemma groupby_agg_Some key fields (ref out : frame) :
  groupby_agg key fields ref = Some out →
  Forall (λ c, c ∈ columns ref) (key :: fields).
Proof. unfold groupby_agg. by case_decide. Qed.
End aggregation.

(** C7.  On a reference that has the key and the metadata columns, the
    aggregation before each merge succeeds, for NPAtlas and for MIBIG.  No
    two rows of its result have the same key; its keys are the non-missing
    keys of the reference; and each metadata field of a row is the
    ['|']-join of [str] of the cells of all reference rows of that key, in
    their order, a missing cell giving ["nan"] rather than being dropped:
    the fields of a row are joins of as many entries, the one at a given
    position coming from the same reference row in each. *)
Theorem reference_aggregation (ref : frame) (prefix : string) :
  (Forall (λ c, c ∈ columns ref) (npatlas_key :: npatlas_fields) →
   ∃ out, npatlas2 ref prefix = Some out ∧
     aggregated npatlas_key npatlas_fields prefix (rows ref) (rows out)) ∧
  (Forall (λ c, c ∈ columns ref) (mibig_key :: mibig_fields) →
   ∃ out, mibig2 ref prefix = Some out ∧
     aggregated mibig_key mibig_fields prefix (rows ref) (rows out)) ∧
  str NaN = "nan".
Proof.
  split_and!; [| |done]; intros Hcols.
  - destruct (groupby_agg_aggregated npatlas_key npatlas_fields prefix ref)
      as (out & Hout & _ & Hagg); [by_compute|done|]. by exists out.
  - destruct (groupby_agg_aggregated mibig_key mibig_fields prefix ref)
      as (out & Hout & _ & Hagg); [by_compute|done|]. by exists out.
Qed.

(** ** The left merges and the number of rows *)

Section merging.
Implicit Types (l m : row) (left right : frame) (c : string).

Lemma filter_key_nil {A} (f : A → value) v (xs : list A) :
  v ∉ f <$> xs → filter (λ x, f x = v) xs = [].
Proof.
  induction xs as [|x xs IH]; [done|]. rw fmap_cons not_elem_of_cons.
  intros [Hne Hnin]. rw filter_cons decide_False; [by apply IH|congruence].
Qed.

(** Against unique keys a row matches at most once. *)
Lemma filter_key_unique {A} (f : A → value) v (xs : list A) :
  NoDup (f <$> xs) →
  filter (λ x, f x = v) xs = [] ∨ ∃ x, filter (λ x, f x = v) xs = [x].
Proof.
  induction xs as [|x xs IH]; [by left|]. rw fmap_cons NoDup_cons.
  intros [Hnin Hnd]. rw filter_cons. case_decide as Hx.
  - right. exists x. subst v. by rw filter_key_nil.
  - by apply IH.
Qed.

Lemma merge_left_unique left right left_on right_on out :
  NoDup ((λ m : row, m !!! right_on) <$> rows right) →
  merge_left left right left_on right_on = Some out →
  columns out = columns left ++ columns right ∧
  rows out = (λ l, l ∪ joined right right_on (l !!! left_on)) <$> rows left.
Proof.
  intros Hnd. unfold merge_left. case_decide; [|done]. intros [= <-].
  split; [done|]. simpl. induction (rows left) as [|l ls IH]; [done|].
  rw fmap_cons bind_cons IH. unfold joined.
  by destruct (filter_key_unique (λ m : row, m !!! right_on)
                 (l !!! left_on) (rows right) Hnd) as [->|[m ->]].
Qed.

Lemma merge_left_rows left right left_on right_on out :
  NoDup ((λ m : row, m !!! right_on) <$> rows right) →
  merge_left left right left_on right_on = Some out →
  length (rows out) = length (rows left) ∧
  (∀ c, c ∈ columns left → c ∈ columns out) ∧
  ∀ i l, rows left !! i = Some l →
         ∃ l' : row, rows out !! i = Some l' ∧ l ⊆ l'.
Proof.
  intros Hnd [Hcols ->]%merge_left_unique; [|done]. split_and!.
  - by rw length_fmap.
  - intros c Hc. rw Hcols. set_solver.
  - intros i l Hl. eexists. rw list_lookup_fmap Hl /=. split; [done|].
    apply map_union_subseteq_l.
Qed.
End merging.

Lemma aggregate_npatlas_extends table npatlas col prefix out :
  _aggregate_npatlas table npatlas col prefix = Some out → extends table out.
Proof.
  unfold _aggregate_npatlas. intros (agg & Hagg & Hout)%bind_Some.
  eapply merge_left_rows; [|done].
  destruct (groupby_agg_aggregated npatlas_key npatlas_fields prefix npatlas)
    as (agg' & Hagg' & _ & Hnd & _); [by_compute| |].
  - unfold npatlas2 in Hagg. apply fmap_Some in Hagg as (g & Hg & _).
    by eapply groupby_agg_Some.
  - unfold npatlas2 in Hagg. by simplify_eq.
Qed.

Lemma aggregate_mibig_extends table mibig col prefix out :
  _aggregate_mibig table mibig col prefix = Some out → extends table out.
Proof.
  unfold _aggregate_mibig. intros (agg & Hagg & Hout)%bind_Some.
  eapply merge_left_rows; [|done].
  destruct (groupby_agg_aggregated mibig_key mibig_fields prefix mibig)
    as (agg' & Hagg' & _ & Hnd & _); [by_compute| |].
  - unfold mibig2 in Hagg. apply fmap_Some in Hagg as (g & Hg & _).
    by eapply groupby_agg_Some.
  - unfold mibig2 in Hagg. by simplify_eq.
Qed.

Lemma aggregate_npatlas_columns table npatlas col prefix out :
  _aggregate_npatlas table npatlas col prefix = Some out →
  columns out =
  columns table ++ (String.app prefix <$> npatlas_key :: npatlas_fields).
Proof.
  unfold _aggregate_npatlas. intros (agg & Hagg & Hout)%bind_Some.
  destruct (groupby_agg_aggregated npatlas_key npatlas_fields prefix npatlas)
    as (agg' & Hagg' & Hcols & Hnd & _); [by_compute| |].
  - unfold npatlas2 in Hagg. apply fmap_Some in Hagg as (g & Hg & _).
    by eapply groupby_agg_Some.
  - unfold npatlas2 in Hagg. simplify_eq.
    apply merge_left_unique in Hout as [-> _]; [|done]. by rw Hcols.
Qed.

Lemma aggregate_mibig_columns table mibig col prefix out :
  _aggregate_mibig table mibig col prefix = Some out →
  columns out =
  columns table ++ (String.app prefix <$> mibig_key :: mibig_fields).
Proof.
  unfold _aggregate_mibig. intros (agg & Hagg & Hout)%bind_Some.
  destruct (groupby_agg_aggregated mibig_key mibig_fields prefix mibig)
    as (agg' & Hagg' & Hcols & Hnd & _); [by_compute| |].
  - unfold mibig2 in Hagg. apply fmap_Some in Hagg as (g & Hg & _).
    by eapply groupby_agg_Some.
  - unfold mibig2 in Hagg. simplify_eq.
    apply merge_left_unique in Hout as [-> _]; [|done]. by rw Hcols.
Qed.

(** The ten merges append the reference labels to the columns the feature
    table had after its five first-block columns were added. *)
Lemma match_databases_columns features npatlas mibig merged :
  match_databases features npatlas mibig = Some merged →
  ∃ cols, columns merged = cols ++ reference_labels.
Proof.
  unfold match_databases. intros (npa & _ & H)%bind_Some.
  do 5 (apply bind_Some in H as (? & _ & H)).
  apply bind_Some in H as (m1 & H1%aggregate_npatlas_columns & H).
  apply bind_Some in H as (m2 & H2%aggregate_npatlas_columns & H).
  apply bind_Some in H as (m3 & H3%aggregate_npatlas_columns & H).
  apply bind_Some in H as (m4 & H4%aggregate_npatlas_columns & H).
  apply bind_Some in H as (m5 & H5%aggregate_npatlas_columns & H).
  apply bind_Some in H as (m6 & H6%aggregate_mibig_columns & H).
  apply bind_Some in H as (m7 & H7%aggregate_mibig_columns & H).
  apply bind_Some in H as (m8 & H8%aggregate_mibig_columns & H).
  apply bind_Some in H as (m9 & H9%aggregate_mibig_columns & H).
  apply aggregate_mibig_columns in H.
  eexists. rw H H9 H8 H7 H6 H5 H4 H3 H2 H1 -!app_assoc. f_equal.
Qed.

(** So the merged table has the columns the two loops read. *)
Lemma match_databases_evidence features npatlas mibig merged :
  match_databases features npatlas mibig = Some merged →
  Forall (λ c, c ∈ columns merged) level_2_3_4_evidence ∧
  Forall (λ cn, cn.1 ∈ columns merged) tool_combinations.
Proof.
  intros [cols ->]%match_databases_columns. split.
  - apply (Forall_impl (λ c, c ∈ reference_labels)); [by_compute|].
    intros c Hc. apply elem_of_app. by right.
  - apply (Forall_impl (λ cn, cn.1 ∈ reference_labels)); [by_compute|].
    intros c Hc. apply elem_of_app. by right.
Qed.

Section row_count.
Implicit Types (table out : frame) (col : string).

Lemma setitem_length c vals table out :
  setitem c vals table = Some out → length (rows out) = length (rows table).
Proof.
  unfold setitem. case_decide as Hlen; [|done]. intros [= <-]. simpl.
  by rw length_zip_with_l_eq.
Qed.

Lemma prepare_inchikey_length table col out :
  _prepare_inchikey table col = Some out →
  length (rows out) = length (rows table).
Proof.
  unfold _prepare_inchikey. intros (vals & _ & Hset)%bind_Some.
  by eapply setitem_length.
Qed.

Lemma tiering_length table out :
  tiering table = Some out → length (rows out) = length (rows table).
Proof.
  unfold tiering. intros (ls & _ & H)%bind_Some.
  apply bind_Some in H as (t1 & ?%setitem_length & H).
  apply bind_Some in H as (t2 & ?%setitem_length & H).
  apply bind_Some in H as (t3 & ?%setitem_length & H).
  apply bind_Some in H as (t4 & ?%setitem_length & ?%setitem_length).
  congruence.
Qed.

Lemma tool_summary_length table out :
  tool_summary table = Some out → length (rows out) = length (rows table).
Proof.
  unfold tool_summary. intros (els & _ & H)%bind_Some.
  apply bind_Some in H as (t1 & ?%setitem_length & ?%setitem_length).
  congruence.
Qed.

Lemma propagate_length table col out :
  _propagate_microbial_annotation table col = Some out →
  length (rows out) = length (rows table).
Proof.
  unfold _propagate_microbial_annotation. intros (plist & _ & H)%bind_Some.
  apply bind_Some in H as (marks & _ & H).
  apply bind_Some in H as (t1 & ?%setitem_length & ?%setitem_length).
  congruence.
Qed.

Lemma drop_column_length c table out :
  drop_column c table = Some out → length (rows out) = length (rows table).
Proof.
  unfold drop_column. case_decide; [|done]. intros [= <-]. simpl.
  by rw length_fmap.
Qed.

Lemma aggregate_npatlas_length table npatlas col prefix out :
  _aggregate_npatlas table npatlas col prefix = Some out →
  length (rows out) = length (rows table).
Proof. by intros [? _]%aggregate_npatlas_extends. Qed.

Lemma aggregate_mibig_length table mibig col prefix out :
  _aggregate_mibig table mibig col prefix = Some out →
  length (rows out) = length (rows table).
Proof. by intros [? _]%aggregate_mibig_extends. Qed.

Lemma match_databases_length features npatlas mibig out :
  match_databases features npatlas mibig = Some out →
  length (rows out) = length (rows features).
Proof.
  unfold match_databases. intros (npa & _ & H)%bind_Some.
  repeat (apply bind_Some in H as (? & ?%prepare_inchikey_length & H)).
  repeat (apply bind_Some in H as (? & ?%aggregate_npatlas_length & H)).
  repeat (apply bind_Some in H as (? & ?%aggregate_mibig_length & H)).
  apply aggregate_mibig_length in H. congruence.
Qed.

Lemma annotate_length table out :
  annotate table = Some out → length (rows out) = length (rows table).
Proof.
  unfold annotate.
  intros (? & ?%tiering_length & H)%bind_Some.
  apply bind_Some in H as (? & ?%tool_summary_length & H).
  repeat (apply bind_Some in H as (? & ?%propagate_length & H)).
  apply drop_column_length in H. congruence.
Qed.
End row_count.


(** ** The worked run, checked *)

Section demo.
Import Demo.

Lemma default_is_Some {A} (d : A) (o : option A) :
  is_Some o → o = Some (default d o).
Proof. by intros [x ->]. Qed.

Example demo_match_databases : match_databases features npatlas mibig = Some merged.
Proof. apply default_is_Some. by_compute. Qed.

Example demo_tiering : tiering merged = Some tiered.
Proof. apply default_is_Some. by_compute. Qed.

Example demo_notebook : notebook features npatlas mibig = Some out.
Proof. apply default_is_Some. by_compute. Qed.

(** The feature matched through its first block to two NPAtlas records. *)
Example demo_library_match :
  cells out 0
    ["GNPS_LIB_NPA_npaid"; "GNPS_LIB_NPA_compound_id"; "GNPS_LIB_NPA_genus";
     "is_microbial_level_2"; "is_microbial_level_3"; "is_microbial_level_4";
     "is_microbial_level_2_3"; "is_microbial_level_2_3_4";
     "is_microbial_tool"; "is_microbial_tool_id"] =
  Some [Str "NPA12345|NPA00007"; Str "12345|7"; Str "nan|Streptomyces";
        Str "YES"; NaN; NaN; Str "YES"; Str "YES";
        Str "GNPS_LIB_NPA|"; Str "NPA12345|NPA00007|"].
Proof. by vm_compute. Qed.

(** A hit whose component index is -1 is not marked in its own [_network]
    column; the unannotated member of component 7 is. *)
Example demo_sentinel_hit :
  cells out 2
    [componentindex; "is_microbial_level_4"; "is_microbial_level_4_network";
     "is_microbial_level_4_networkid"] =
  Some [Int (-1); Str "YES"; NaN; NaN] ∧
  cells out 1
    [componentindex; "is_microbial_level_2"; "is_microbial_level_2_network";
     "is_microbial_level_2_networkid"] =
  Some [Int 7; NaN; Str "YES"; Int 7].
Proof. by vm_compute. Qed.
End demo.


(** ** The theorems at the worked run *)

Lemma combined_levels_are_unions_witness :
  Forall (λ c, c ∈ columns Demo.merged) level_2_3_4_evidence ∧
  ∃ out, tiering Demo.merged = Some out ∧
    length (rows out) = length (rows Demo.merged) ∧
    ∀ r : row, r ∈ rows out →
      (r !!! "is_microbial_level_2_3" = Str "YES" ↔
         r !!! "is_microbial_level_2" = Str "YES" ∨
         r !!! "is_microbial_level_3" = Str "YES") ∧
      (r !!! "is_microbial_level_2_3_4" = Str "YES" ↔
         r !!! "is_microbial_level_2" = Str "YES" ∨
         r !!! "is_microbial_level_3" = Str "YES" ∨
         r !!! "is_microbial_level_4" = Str "YES").
Proof.
  split; [by_compute|]. apply (combined_levels_are_unions Demo.merged). by_compute.
Defined.

Lemma tier_marker_iff_evidence_witness :
  Forall (λ c, c ∈ columns Demo.merged) level_2_3_4_evidence ∧
  ∃ out, tiering Demo.merged = Some out ∧
    length (rows out) = length (rows Demo.merged) ∧
    ∀ i (r : row), rows Demo.merged !! i = Some r →
      ∃ r' : row, rows out !! i = Some r' ∧
        (∀ c, c ∈ level_2_3_4_evidence → r' !!! c = r !!! c) ∧
        tier_holds "is_microbial_level_2" level_2_evidence r' ∧
        tier_holds "is_microbial_level_3" level_3_evidence r' ∧
        tier_holds "is_microbial_level_4" level_4_evidence r' ∧
        tier_holds "is_microbial_level_2_3" level_2_3_evidence r' ∧
        tier_holds "is_microbial_level_2_3_4" level_2_3_4_evidence r'.
Proof.
  split; [by_compute|]. apply (tier_marker_iff_evidence Demo.merged). by_compute.
Defined.



Lemma propagation_closure_witness :
  "is_microbial_level_2_3_4" ∈ columns Demo.tiered ∧
  componentindex ∈ columns Demo.tiered ∧
  ∃ out,
    _propagate_microbial_annotation Demo.tiered "is_microbial_level_2_3_4" = Some out ∧
    (∀ i j (r1 r2 : row),
       rows Demo.tiered !! i = Some r1 → rows Demo.tiered !! j = Some r2 →
       r1 !!! componentindex = r2 !!! componentindex →
       r1 !!! componentindex ≠ Int (-1) →
       ∃ r1' r2' : row, rows out !! i = Some r1' ∧ rows out !! j = Some r2' ∧
         r1' !!! ("is_microbial_level_2_3_4" +:+ "_network") =
         r2' !!! ("is_microbial_level_2_3_4" +:+ "_network")) ∧
    ∀ i (r : row), rows Demo.tiered !! i = Some r →
      ∃ r' : row, rows out !! i = Some r' ∧
        (r' !!! ("is_microbial_level_2_3_4" +:+ "_network") = Str "YES" →
           r' !!! ("is_microbial_level_2_3_4" +:+ "_networkid") =
           r !!! componentindex) ∧
        (r' !!! ("is_microbial_level_2_3_4" +:+ "_network") ≠ Str "YES" →
           r' !!! ("is_microbial_level_2_3_4" +:+ "_network") = NaN ∧
           r' !!! ("is_microbial_level_2_3_4" +:+ "_networkid") = NaN).
Proof.
  split; [by_compute|]. split; [by_compute|].
  apply (propagation_closure Demo.tiered "is_microbial_level_2_3_4"); by_compute.
Defined.


Lemma reference_aggregation_witness :
  Forall (λ c, c ∈ columns Demo.npatlas_ref) (npatlas_key :: npatlas_fields) ∧
  Forall (λ c, c ∈ columns Demo.mibig_ref) (mibig_key :: mibig_fields) ∧
  (∃ out, npatlas2 Demo.npatlas_ref "GNPS_LIB_" = Some out ∧
     aggregated npatlas_key npatlas_fields "GNPS_LIB_"
       (rows Demo.npatlas_ref) (rows out)) ∧
  (∃ out, mibig2 Demo.mibig_ref "CSI_" = Some out ∧
     aggregated mibig_key mibig_fields "CSI_" (rows Demo.mibig_ref) (rows out)).
Proof.
  split; [by_compute|]. split; [by_compute|]. split.
  - apply (proj1 (reference_aggregation Demo.npatlas_ref "GNPS_LIB_")). by_compute.
  - apply (proj1 (proj2 (reference_aggregation Demo.mibig_ref "CSI_"))). by_compute.
Defined.




(** * Further properties of the notebook *)

(** ** First blocks and renamed columns *)

Section first_block.
Implicit Types (p q a b s : string).

Lemma no_stereo_block p a :
  contains "-" p = false → no_stereo (Str (p +:+ "-" +:+ a)) = Str p.
Proof. intros Hp. simpl. by rw (split_app "-" p a). Qed.

Lemma list_ascii_app s1 s2 :
  String.list_ascii_of_string (s1 +:+ s2) =
  String.list_ascii_of_string s1 ++ String.list_ascii_of_string s2.
Proof.
  induction s1 as [|c s1 IH]; [done|]. rw string_app_cons /=. by rw IH.
Qed.

Lemma length_list_ascii s : length (String.list_ascii_of_string s) = String.length s.
Proof. induction s as [|c s IH]; simpl; congruence. Qed.

Lemma string_prefix_iff p s : String.prefix p s = true ↔ ∃ t, s = p +:+ t.
Proof.
  revert s. induction p as [|c p IH]; intros [|d s]; simpl.
  - split; [by exists ""|done].
  - split; [by exists (String d s)|done].
  - split; [done|]. by intros [t Ht].
  - destruct (ascii_dec c d) as [<-|Hne].
    + rw IH. split; intros [t Ht]; exists t.
      * by rw string_app_cons -Ht.
      * rw string_app_cons in Ht. by simplify_eq.
    + split; [done|]. intros [t Ht]. rw string_app_cons in Ht.
      by simplify_eq.
Qed.
End first_block.

(** X1.  Two identifiers get the same key exactly when they have the same
    first block: whatever follows the first ['-'] plays no part, and
    different first blocks give different keys. *)
Theorem first_block_is_the_key (p q a b : string) :
  contains "-" p = false → contains "-" q = false →
  no_stereo (Str (p +:+ "-" +:+ a)) = no_stereo (Str (p +:+ "-" +:+ b)) ∧
  (no_stereo (Str (p +:+ "-" +:+ a)) = no_stereo (Str (q +:+ "-" +:+ b)) ↔
   p = q).
Proof.
  intros Hp Hq. rw !no_stereo_block //. split; [done|].
  split; [by intros [= ->]|by intros ->].
Qed.


Lemma add_column_idemp cols c : add_column (add_column cols c) c = add_column cols c.
Proof.
  unfold add_column at 1. rw decide_True //. apply elem_of_add_column_new.
Qed.


(** X4.  Renaming with a prefix loses nothing: the renamed frame read under
    the prefixed label gives the column the frame had under the label,
    and raises exactly when the frame did not have it. *)
Theorem add_prefix_column (prefix : string) (f : frame) (c : string) :
  column (add_prefix prefix f) (prefix +:+ c) = column f c.
Proof.
  unfold column, add_prefix. simpl.
  destruct (decide (c ∈ columns f)) as [Hc|Hc].
  - rw decide_True; [|by apply list_elem_of_fmap_2].
    rw -list_fmap_compose. f_equal. apply list_fmap_ext. intros _ r _.
    simpl. apply lookup_total_prefix.
  - rw decide_False //. by intros ?%(list_elem_of_fmap_inj_2 (String.app prefix)).
Qed.

(** X5.  [show_metadata_tools] lists a label exactly when it is a column
    label that starts with the prefix; on a frame just renamed with that
    prefix it lists every column. *)
Theorem show_metadata_tools_lists (table : frame) (prefix : string) :
  (∀ x, x ∈ show_metadata_tools table prefix ↔
        x ∈ columns table ∧ ∃ t, x = prefix +:+ t) ∧
  show_metadata_tools (add_prefix prefix table) prefix =
  columns (add_prefix prefix table).
Proof.
  unfold show_metadata_tools. split.
  - intros x. by rw list_elem_of_filter string_prefix_iff (comm (∧)).
  - simpl. induction (columns table) as [|c cols IH]; [done|].
    rw fmap_cons filter_cons decide_True; [by rw IH|].
    apply string_prefix_iff. by exists c.
Qed.

(** X6.  The file written is named after the feature table with its last
    four characters replaced by [_is_microbial.tsv], whatever these four
    characters are; a name of at most four characters leaves only the
    suffix. *)
Theorem output_name_replaces_extension (stem ext : string) :
  String.length ext = 4%nat →
  output_name (stem +:+ ext) = stem +:+ "_is_microbial.tsv" ∧
  output_name ext = "_is_microbial.tsv".
Proof.
  intros Hext. unfold output_name, drop_last.
  rw list_ascii_app length_app !length_list_ascii Hext.
  replace (String.length stem + 4 - 4)%nat with (length (String.list_ascii_of_string stem))
    by (rw length_list_ascii; lia).
  rw take_app_length String.string_of_list_ascii_of_string. split; [done|].
  by rw Nat.sub_diag take_0.
Qed.

Lemma output_name_replaces_extension_witness :
  String.length ".tsv" = 4%nat ∧
  output_name feature_metadata_table =
    "annotations_2_1/CMN_metabo_feature_metadata_filtered_consolidated"
      +:+ "_is_microbial.tsv" ∧
  output_name ".tsv" = "_is_microbial.tsv".
Proof.
  split; [reflexivity|].
  apply (output_name_replaces_extension
           "annotations_2_1/CMN_metabo_feature_metadata_filtered_consolidated"
           ".tsv").
  reflexivity.
Defined.

Lemma first_block_is_the_key_witness :
  contains "-" "ABCDEFGHIJKLMN" = false ∧ contains "-" "ZZZZZZZZZZZZZZ" = false ∧
  no_stereo (Str ("ABCDEFGHIJKLMN" +:+ "-" +:+ "UHFFFAOYSA-N")) =
  no_stereo (Str ("ABCDEFGHIJKLMN" +:+ "-" +:+ "XXXXXXXXXX-X")) ∧
  (no_stereo (Str ("ABCDEFGHIJKLMN" +:+ "-" +:+ "UHFFFAOYSA-N")) =
   no_stereo (Str ("ZZZZZZZZZZZZZZ" +:+ "-" +:+ "XXXXXXXXXX-X")) ↔
   "ABCDEFGHIJKLMN" = "ZZZZZZZZZZZZZZ").
Proof.
  split; [reflexivity|]. split; [reflexivity|].
  apply (first_block_is_the_key "ABCDEFGHIJKLMN" "ZZZZZZZZZZZZZZ"); reflexivity.
Defined.


(** ** What a merge puts in a row *)

Section merge_cells.
Implicit Types (l m : row) (key fld prefix : string) (fields : list string).

Lemma filter_key_fmap {A} (key_of : A → value) (F : value → A) v (ks : list value) :
  NoDup ks → (∀ k, key_of (F k) = k) →
  filter (λ x, key_of x = v) (F <$> ks) = if decide (v ∈ ks) then [F v] else [].
Proof.
  intros Hnd HF. induction Hnd as [|k ks Hk Hnd IH]; [done|].
  rw fmap_cons filter_cons HF IH. destruct (decide (k = v)) as [->|Hne].
  - rw decide_False // decide_True //. by left.
  - destruct (decide (v ∈ ks)) as [Hv|Hv].
    + rw decide_True //. by right.
    + rw decide_False //. by intros [->|?]%elem_of_cons.
Qed.

Lemma nan_row_lookup (cols : list string) c : nan_row cols !!! c = NaN.
Proof.
  unfold nan_row. rw lookup_total_alt.
  destruct (list_to_map _ !! c) as [v|] eqn:Hv; [|done].
  apply elem_of_list_to_map_2 in Hv.
  by apply list_elem_of_fmap in Hv as (c' & [= _ ->] & _).
Qed.

Lemma length_remove_dups (ks : list value) :
  (length (remove_dups ks) ≤ length ks)%nat.
Proof.
  apply submseteq_length, NoDup_submseteq; [apply NoDup_remove_dups|].
  intros k. by rw elem_of_remove_dups.
Qed.

Lemma lookup_total_union_fresh l m c : l !! c = None → (l ∪ m) !!! c = m !!! c.
Proof. intros Hc. by rw !lookup_total_alt lookup_union_r. Qed.

(** The rows of [groupby_agg ... .rename(...)] merged to the left of a
    table. *)
Lemma aggregate_merge_rows key fields prefix (ref g table out : frame) left_on :
  groupby_agg key fields ref = Some g →
  merge_left table (add_prefix prefix g) left_on (prefix +:+ key) = Some out →
  rows out =
  (λ l, l ∪ (if decide (l !!! left_on ∈ group_keys key (rows ref))
             then kmap (M2 := gmap string) (String.app prefix)
                    (agg_row key fields (rows ref) (l !!! left_on))
             else nan_row (String.app prefix <$> key :: fields))) <$> rows table.
Proof.
  unfold groupby_agg. case_decide; [|done]. intros [= <-].
  unfold merge_left. case_decide; [|done]. intros [= <-]. simpl.
  induction (rows table) as [|l ls IH]; [done|].
  rw fmap_cons bind_cons IH.
  assert (filter (λ m : row, m !!! (prefix +:+ key) = l !!! left_on)
            ((λ r : row, kmap (M2 := gmap string) (String.app prefix) r) <$>
               (agg_row key fields (rows ref) <$> group_keys key (rows ref))) =
          if decide (l !!! left_on ∈ group_keys key (rows ref))
          then [kmap (M2 := gmap string) (String.app prefix)
                  (agg_row key fields (rows ref) (l !!! left_on))]
          else []) as ->.
  { rw -list_fmap_compose.
    apply (filter_key_fmap (λ m : row, m !!! (prefix +:+ key))
             (λ k, kmap (M2 := gmap string) (String.app prefix)
                     (agg_row key fields (rows ref) k))).
    - apply NoDup_group_keys.
    - intros k. by rw lookup_total_prefix agg_row_key. }
  by case_decide.
Qed.
End merge_cells.

(** X7.  What one aggregate-and-merge call puts in a row whose cells under
    the new labels were free: when the first block of the row is present
    and is the key of a reference record, every metadata field holds the
    ['|']-join of [str] of the cells of the records of that key; otherwise
    every metadata field is missing.  So the fields of a row are filled
    together or not at all, and a first block that is missing matches
    nothing. *)
Theorem merge_fills_all_or_none (table ref out : frame) (col prefix key : string)
    (fields : list string) :
  (key = npatlas_key ∧ fields = npatlas_fields ∧
   _aggregate_npatlas table ref col prefix = Some out) ∨
  (key = mibig_key ∧ fields = mibig_fields ∧
   _aggregate_mibig table ref col prefix = Some out) →
  Forall (λ l : row, Forall (λ c, l !! (prefix +:+ c) = None) fields)
    (rows table) →
  ∀ i (l : row), rows table !! i = Some l →
    ∃ l' : row, rows out !! i = Some l' ∧
      let k := l !!! (col +:+ "_no_stereo") in
      let group := filter (λ r : row, r !!! key = k) (rows ref) in
      ((k ≠ NaN) ∧ (group ≠ []) →
       ∀ c, c ∈ fields →
         l' !!! (prefix +:+ c) =
         Str (join "|" ((λ r : row, str (r !!! c)) <$> group))) ∧
      ((k = NaN) ∨ (group = []) →
       ∀ c, c ∈ fields → l' !!! (prefix +:+ c) = NaN).
Proof.
  intros Hcall Hfree i l Hl.
  assert (∀ c, c ∈ fields → l !! (prefix +:+ c) = None) as Hfresh.
  { rw Forall_forall in Hfree. apply list_elem_of_lookup_2 in Hl.
    specialize (Hfree l Hl). by rw Forall_forall in Hfree. }
  assert ((key ∉ fields) ∧ ∃ g, groupby_agg key fields ref = Some g ∧
          merge_left table (add_prefix prefix g) (col +:+ "_no_stereo")
            (prefix +:+ key) = Some out) as (Hkey & g & Hg & Hmerge).
  { destruct Hcall as [(-> & -> & H)|(-> & -> & H)];
      (split; [by_compute|]);
      apply bind_Some in H as (agg & (g & Hg & ->)%fmap_Some & Hmerge); eauto. }
  eexists. rw (aggregate_merge_rows _ _ _ _ _ _ _ _ Hg Hmerge).
  rw list_lookup_fmap Hl /=. split; [done|].
  assert (l !!! (col +:+ "_no_stereo") ∈ group_keys key (rows ref) ↔
          l !!! (col +:+ "_no_stereo") ≠ NaN ∧
          filter (λ r : row, r !!! key = l !!! (col +:+ "_no_stereo")) (rows ref) ≠ [])
    as Hin.
  { rw elem_of_group_keys. split; intros [Hk Hgr]; (split; [done|]).
    - destruct Hgr as (r & Hr & Hrk). intros Hnil.
      assert (r ∈ @nil row) as Hin; [|by inversion Hin].
      rw -Hnil. by apply list_elem_of_filter.
    - destruct (filter _ (rows ref)) as [|r rs] eqn:Hf; [done|].
      exists r. assert (r ∈ r :: rs) as Hr by left.
      rw -Hf in Hr. by apply list_elem_of_filter in Hr as [? ?]. }
  split.
  - intros Hmatch c Hc. rw lookup_total_union_fresh; [|by apply Hfresh].
    rw decide_True; [|by apply Hin].
    rw lookup_total_prefix agg_row_field //; [|by intros ->].
    unfold agg_join, group_rows. by rw -list_fmap_compose.
  - intros Hno c Hc. rw lookup_total_union_fresh; [|by apply Hfresh].
    rw decide_False; [apply nan_row_lookup|].
    intros [Hk Hgr]%Hin. by destruct Hno.
Qed.

Lemma merge_fills_all_or_none_witness :
  ((npatlas_key = npatlas_key ∧ npatlas_fields = npatlas_fields ∧
    _aggregate_npatlas Demo.prepared Demo.npatlas_ref gnps_lib "GNPS_LIB_" =
    Some Demo.lib_merged) ∨
   (npatlas_key = mibig_key ∧ npatlas_fields = mibig_fields ∧
    _aggregate_mibig Demo.prepared Demo.npatlas_ref gnps_lib "GNPS_LIB_" =
    Some Demo.lib_merged)) ∧
  Forall (λ l : row, Forall (λ c, l !! ("GNPS_LIB_" +:+ c) = None) npatlas_fields)
    (rows Demo.prepared) ∧
  ∀ i (l : row), rows Demo.prepared !! i = Some l →
    ∃ l' : row, rows Demo.lib_merged !! i = Some l' ∧
      let k := l !!! (gnps_lib +:+ "_no_stereo") in
      let group := filter (λ r : row, r !!! npatlas_key = k) (rows Demo.npatlas_ref) in
      ((k ≠ NaN) ∧ (group ≠ []) →
       ∀ c, c ∈ npatlas_fields →
         l' !!! ("GNPS_LIB_" +:+ c) =
         Str (join "|" ((λ r : row, str (r !!! c)) <$> group))) ∧
      ((k = NaN) ∨ (group = []) →
       ∀ c, c ∈ npatlas_fields → l' !!! ("GNPS_LIB_" +:+ c) = NaN).
Proof.
  assert (_aggregate_npatlas Demo.prepared Demo.npatlas_ref gnps_lib "GNPS_LIB_" =
          Some Demo.lib_merged) as Hrun.
  { apply default_is_Some. by_compute. }
  assert ((npatlas_key = npatlas_key ∧ npatlas_fields = npatlas_fields ∧
           _aggregate_npatlas Demo.prepared Demo.npatlas_ref gnps_lib "GNPS_LIB_" =
           Some Demo.lib_merged) ∨
          (npatlas_key = mibig_key ∧ npatlas_fields = mibig_fields ∧
           _aggregate_mibig Demo.prepared Demo.npatlas_ref gnps_lib "GNPS_LIB_" =
           Some Demo.lib_merged)) as Hcall.
  { left. split; [reflexivity|]. split; [reflexivity|exact Hrun]. }
  split; [exact Hcall|]. split; [by_compute|].
  apply (merge_fills_all_or_none Demo.prepared Demo.npatlas_ref Demo.lib_merged
           gnps_lib "GNPS_LIB_" npatlas_key npatlas_fields); [exact Hcall|by_compute].
Defined.

(** X8.  An aggregated reference has at most as many rows as the reference,
    and none of its cells is missing: its keys are the keys that are not
    missing, and a field is a string even where every record of the key had
    the cell missing (it then reads ["nan"], or ["nan|nan"], ...).  A cell
    that a merge filled is therefore never taken for missing by the loops. *)
Theorem aggregated_cells_present (ref out : frame) (prefix : string) :
  npatlas2 ref prefix = Some out ∨ mibig2 ref prefix = Some out →
  (length (rows out) ≤ length (rows ref))%nat ∧
  ∀ o : row, o ∈ rows out → ∀ c, c ∈ columns out → is_not_nan (o !!! c) = true.
Proof.
  intros Hcall.
  assert (∃ key fields g, (key ∉ fields) ∧ groupby_agg key fields ref = Some g ∧
                          out = add_prefix prefix g) as (key & fields & g & Hkey & Hg & ->).
  { destruct Hcall as [(g & Hg & ->)%fmap_Some|(g & Hg & ->)%fmap_Some].
    - exists npatlas_key, npatlas_fields, g. split; [by_compute|done].
    - exists mibig_key, mibig_fields, g. split; [by_compute|done]. }
  revert Hg. unfold groupby_agg. case_decide; [|done]. intros [= <-]. simpl.
  split.
  - rw !length_fmap. unfold group_keys. rw merge_sort_Permutation.
    etrans; [apply length_remove_dups|].
    etrans; [apply length_filter|]. by rw length_fmap.
  - intros o (o' & -> & (k & -> & Hk)%list_elem_of_fmap)%list_elem_of_fmap c.
    intros [->|(c' & -> & Hc)%list_elem_of_fmap]%elem_of_cons.
    + rw lookup_total_prefix agg_row_key.
      apply elem_of_group_keys in Hk as [Hk _]. by destruct k.
    + rw lookup_total_prefix agg_row_field //. by intros ->.
Qed.


Lemma aggregated_cells_present_witness :
  (npatlas2 Demo.npatlas_ref "GNPS_LIB_" = Some Demo.lib_aggregated ∨
   mibig2 Demo.npatlas_ref "GNPS_LIB_" = Some Demo.lib_aggregated) ∧
  (length (rows Demo.lib_aggregated) ≤ length (rows Demo.npatlas_ref))%nat ∧
  ∀ o : row, o ∈ rows Demo.lib_aggregated →
    ∀ c, c ∈ columns Demo.lib_aggregated → is_not_nan (o !!! c) = true.
Proof.
  assert (npatlas2 Demo.npatlas_ref "GNPS_LIB_" = Some Demo.lib_aggregated) as Hrun.
  { apply default_is_Some. by_compute. }
  split; [left; exact Hrun|].
  apply (aggregated_cells_present Demo.npatlas_ref Demo.lib_aggregated "GNPS_LIB_").
  left. exact Hrun.
Defined.

(** ** The loops at their edges, and the numbers printed *)

Section counting.
Context {A B : Type}.
Implicit Types (l : list A).

Lemma length_filter_fmap (f : A → B) (P : B → Prop) `{!∀ y, Decision (P y)} l :
  length (filter P (f <$> l)) = length (filter (λ x, P (f x)) l).
Proof.
  induction l as [|x l IH]; [done|].
  rw fmap_cons !filter_cons. case_decide; simpl; by rw IH.
Qed.

Lemma length_filter_mono (P Q : A → Prop)
    `{!∀ x, Decision (P x)} `{!∀ x, Decision (Q x)} l :
  (∀ x, P x → Q x) → (length (filter P l) ≤ length (filter Q l))%nat.
Proof.
  intros HPQ. induction l as [|x l IH]; [done|]. rw !filter_cons.
  destruct (decide (P x)) as [HP|HP].
  - rw decide_True; [|by apply HPQ]. simpl. lia.
  - case_decide; simpl; lia.
Qed.

Lemma length_filter_union (P Q R : A → Prop)
    `{!∀ x, Decision (P x)} `{!∀ x, Decision (Q x)} `{!∀ x, Decision (R x)} l :
  (∀ x, R x → P x ∨ Q x) →
  (length (filter R l) ≤ length (filter P l) + length (filter Q l))%nat.
Proof.
  intros HR. induction l as [|x l IH]; [done|]. rw !filter_cons.
  destruct (decide (R x)) as [[HP|HQ]%HR|HRx].
  - rw (decide_True (P := P x)) //. case_decide; simpl; lia.
  - rw (decide_True (P := Q x)) //. case_decide; simpl; lia.
  - repeat case_decide; simpl; lia.
Qed.
End counting.

Lemma count_yes_fmap (cols : list string) (rs : list row) (g : row → row) c :
  c ∈ cols →
  count_yes (Frame cols (g <$> rs)) c =
  Some (length (filter (λ r : row, g r !!! c = Str "YES") rs)).
Proof.
  intros Hc. unfold count_yes, column. simpl. rw decide_True //=.
  by rw -list_fmap_compose (length_filter_fmap (λ r : row, g r !!! c)
                              (λ v, v = Str "YES")).
Qed.

Lemma elem_of_tier_labels cols c :
  c ∈ ["is_microbial_level_2"; "is_microbial_level_3"; "is_microbial_level_4";
       "is_microbial_level_2_3"; "is_microbial_level_2_3_4"] →
  c ∈ tier_labels cols.
Proof.
  unfold tier_labels. rw !elem_of_cons.
  intros [->|[->|[->|[->|[->|[]%elem_of_nil]]]]];
    repeat first [apply elem_of_add_column_new | apply elem_of_add_column].
Qed.

Lemma getitem_None (cols : list string) (r : row) c :
  c ∉ cols → getitem cols r c = None.
Proof. intros Hc. unfold getitem. by rw decide_False. Qed.

(** X10.  On a table without the first cell the tiering loop reads, the loop
    raises as soon as the table has a row; on a table with no row it reads
    nothing and passes, whatever the columns. *)
Theorem tiering_first_column (table : frame) :
  "GNPS_LIB_NPA_compound_id" ∉ columns table →
  (tiering table = None ↔ rows table ≠ []).
Proof.
  intros Hcol. destruct table as [cols [|r rs]]; simpl in *.
  - split; [|done]. unfold tiering, setitem. simpl. by intros [=].
  - split; [done|]. intros _. unfold tiering. simpl.
    assert (tier_row cols r = None) as ->; [|done].
    unfold tier_row, level_2_evidence. cbn [first_present].
    by rw (getitem_None cols r "GNPS_LIB_NPA_compound_id").
Qed.

Lemma tiering_first_column_witness :
  ("GNPS_LIB_NPA_compound_id" ∉ columns Demo.features) ∧
  (tiering Demo.features = None ↔ rows Demo.features ≠ []).
Proof.
  split; [by_compute|]. apply (tiering_first_column Demo.features). by_compute.
Defined.

(** X11.  The numbers the notebook prints for the five levels are bound to
    one another: each level has at most as many positive rows as a combined
    level that contains it, and a combined level has at most as many as its
    parts together. *)
Theorem level_counts (table : frame) :
  Forall (λ c, c ∈ columns table) level_2_3_4_evidence →
  ∃ out n2 n3 n4 n23 n234,
    tiering table = Some out ∧
    count_yes out "is_microbial_level_2" = Some n2 ∧
    count_yes out "is_microbial_level_3" = Some n3 ∧
    count_yes out "is_microbial_level_4" = Some n4 ∧
    count_yes out "is_microbial_level_2_3" = Some n23 ∧
    count_yes out "is_microbial_level_2_3_4" = Some n234 ∧
    (n2 ≤ n23 ∧ n3 ≤ n23 ∧ n23 ≤ n2 + n3 ∧
     n23 ≤ n234 ∧ n4 ≤ n234 ∧ n234 ≤ n23 + n4)%nat.
Proof.
  intros Hcols. eexists. do 5 eexists.
  split; [by apply tiering_total|].
  rw !count_yes_fmap; [|by apply elem_of_tier_labels; set_solver..].
  split_and!; [done..| | | | | |].
  - apply length_filter_mono. intros r.
    rw tier_columns_level_2 tier_columns_level_2_3.
    rw (marker_perm _ _ r level_2_3_perm) marker_app. auto.
  - apply length_filter_mono. intros r.
    rw tier_columns_level_3 tier_columns_level_2_3.
    rw (marker_perm _ _ r level_2_3_perm) marker_app. auto.
  - apply length_filter_union. intros r.
    rw tier_columns_level_2 tier_columns_level_3 tier_columns_level_2_3.
    by rw (marker_perm _ _ r level_2_3_perm) marker_app.
  - apply length_filter_mono. intros r.
    rw tier_columns_level_2_3 tier_columns_level_2_3_4.
    rw (marker_perm _ _ r level_2_3_perm) (marker_perm _ _ r level_2_3_4_perm).
    rw !marker_app. tauto.
  - apply length_filter_mono. intros r.
    rw tier_columns_level_4 tier_columns_level_2_3_4.
    rw (marker_perm _ _ r level_2_3_4_perm) !marker_app. tauto.
  - apply length_filter_union. intros r.
    rw tier_columns_level_4 tier_columns_level_2_3 tier_columns_level_2_3_4.
    rw (marker_perm _ _ r level_2_3_perm) (marker_perm _ _ r level_2_3_4_perm).
    rw !marker_app. tauto.
Qed.

Lemma level_counts_witness :
  Forall (λ c, c ∈ columns Demo.merged) level_2_3_4_evidence ∧
  ∃ out n2 n3 n4 n23 n234,
    tiering Demo.merged = Some out ∧
    count_yes out "is_microbial_level_2" = Some n2 ∧
    count_yes out "is_microbial_level_3" = Some n3 ∧
    count_yes out "is_microbial_level_4" = Some n4 ∧
    count_yes out "is_microbial_level_2_3" = Some n23 ∧
    count_yes out "is_microbial_level_2_3_4" = Some n234 ∧
    (n2 ≤ n23 ∧ n3 ≤ n23 ∧ n23 ≤ n2 + n3 ∧
     n23 ≤ n234 ∧ n4 ≤ n234 ∧ n234 ≤ n23 + n4)%nat.
Proof.
  split; [by_compute|]. apply (level_counts Demo.merged). by_compute.
Defined.

Section tool_errors.
Implicit Types (r : row) (cols : list string) (combos : list (string * string)).

Lemma tool_steps_integer cols r combos acc cn z :
  cn ∈ combos → r !!! cn.1 = Int z →
  tool_steps cols r acc (with_delimiter <$> combos) = None.
Proof.
  intros Hcn Hz. revert acc.
  induction combos as [|chk combos IH]; intros acc; [by inversion Hcn|].
  apply elem_of_cons in Hcn as [<-|Hcn]; simpl.
  - unfold tool_step, getitem. simpl. case_decide; [|done]. by rw Hz.
  - destruct (tool_step cols r acc (with_delimiter chk)) as [acc'|]; [|done].
    simpl. by apply IH.
Qed.
End tool_errors.



(** ** The two loops agree *)

Section loops_agree.
Implicit Types (r : row).

Lemma tier_columns_tool_cells r cn :
  cn ∈ tool_combinations → tier_columns r !!! cn.1 = r !!! cn.1.
Proof.
  revert cn. apply Forall_forall. unfold tier_columns.
  repeat constructor; by rw !lookup_total_insert_ne.
Qed.

Lemma matches_of_ext r r' combos :
  (∀ cn, cn ∈ combos → r' !!! cn.1 = r !!! cn.1) →
  matches_of r' combos = matches_of r combos.
Proof.
  intros Hcells. induction combos as [|cn combos IH]; [done|].
  assert (matches_of r' combos = matches_of r combos) as IH'.
  { apply IH. intros cn' Hcn'. apply Hcells. by right. }
  unfold matches_of in *. simpl. rw Hcells; [|by left].
  destruct (r !!! cn.1); simpl; [apply IH'|f_equal; apply IH'|apply IH'].
Qed.

Lemma delimited_nil_iff (l : list string) : delimited l = "" ↔ l = [].
Proof. split; [apply delimited_nil_inv|by intros ->]. Qed.

Lemma matches_nil_iff r :
  Forall (λ cn, string_or_missing (r !!! cn.1)) tool_combinations →
  matches r = [] ↔ Forall (λ cn, r !!! cn.1 = NaN) tool_combinations.
Proof.
  intros Hcells. unfold matches. rw matches_of_nil.
  rw !Forall_forall in Hcells |- *. split; intros Hall cn Hcn.
  - specialize (Hcells cn Hcn). specialize (Hall cn Hcn).
    destruct (r !!! cn.1) as [|s|z]; [done| |done]. by destruct (Hall s).
  - intros s. by rw Hall.
Qed.

Lemma evidence_missing_iff r :
  Forall (λ pq, r !!! pq.1 = NaN ↔ r !!! pq.2 = NaN) npatlas_cell_pairs →
  Forall (λ c, r !!! c = NaN) level_2_3_4_evidence ↔
  Forall (λ cn, r !!! cn.1 = NaN) tool_combinations.
Proof.
  unfold npatlas_cell_pairs, level_2_3_4_evidence, tool_combinations.
  rw !Forall_cons !Forall_nil. simpl. tauto.
Qed.
End loops_agree.



(** ** More on the propagation *)

Lemma elem_of_add_column_iff (cols : list string) c x :
  x ∈ add_column cols c ↔ x ∈ cols ∨ x = c.
Proof.
  unfold add_column. case_decide as Hc.
  - split; [by left|]. by intros [?| ->].
  - by rw elem_of_app list_elem_of_singleton.
Qed.

Section more_propagation.
Implicit Types (r : row) (rs : list row) (col : string) (plist : list value).

Lemma network_ne_componentindex col : col +:+ "_network" ≠ componentindex.
Proof.
  intros Heq. assert (ends_with "k" (col +:+ "_network") = true) as Hk.
  { by rw ends_with_app_r. }
  by rw Heq in Hk.
Qed.

Lemma networkid_ne_componentindex col : col +:+ "_networkid" ≠ componentindex.
Proof.
  intros Heq. assert (ends_with "d" (col +:+ "_networkid") = true) as Hd.
  { by rw ends_with_app_r. }
  by rw Heq in Hd.
Qed.

Lemma network_columns_other col plist r c :
  c ≠ col +:+ "_network" → c ≠ col +:+ "_networkid" →
  network_columns col plist r !! c = r !! c.
Proof.
  intros Hn Hid. unfold network_columns. by rw !lookup_insert_ne.
Qed.

Lemma network_columns_total_other col plist r c :
  c ≠ col +:+ "_network" → c ≠ col +:+ "_networkid" →
  network_columns col plist r !!! c = r !!! c.
Proof. intros Hn Hid. by rw !lookup_total_alt network_columns_other. Qed.

Lemma network_columns_componentindex col plist r :
  network_columns col plist r !!! componentindex = r !!! componentindex.
Proof.
  apply network_columns_total_other; apply not_eq_sym;
    [apply network_ne_componentindex|apply networkid_ne_componentindex].
Qed.

(** The sources only depend on the tier cells and the component indices. *)
Lemma sources_ext col rs (g : row → row) :
  (∀ r, g r !!! col = r !!! col) →
  (∀ r, g r !!! componentindex = r !!! componentindex) →
  sources col (g <$> rs) = sources col rs.
Proof.
  intros Hcol Hidx. unfold sources. induction rs as [|r rs IH]; [done|].
  assert (is_source col (g r) ↔ is_source col r) as Hiff.
  { unfold is_source. by rw Hcol Hidx. }
  rw fmap_cons !filter_cons.
  destruct (decide (is_source col (g r))) as [Hg|Hg],
           (decide (is_source col r)) as [Hr|Hr];
    [|by apply Hiff in Hg|by apply Hiff in Hr|done].
  by rw !fmap_cons IH Hidx.
Qed.

Lemma sources_mono col1 col2 rs c :
  Forall (λ r : row, r !!! col1 ≠ NaN → r !!! col2 ≠ NaN) rs →
  c ∈ sources col1 rs → c ∈ sources col2 rs.
Proof.
  intros Hrs. rw !elem_of_sources. intros (Hc & r & Hr & Hidx & Hv).
  split; [done|]. exists r. split_and!; [done..|].
  rw Forall_forall in Hrs. by apply Hrs.
Qed.
End more_propagation.

(** X14.  The propagation never alters what the table held: it keeps every
    column, and in every row every cell other than the two it writes,
    among them the tier cell and the component index. *)
Theorem propagation_keeps_cells (table : frame) (col : string) :
  col ∈ columns table → componentindex ∈ columns table →
  ∃ out, _propagate_microbial_annotation table col = Some out ∧
    (∀ c, c ∈ columns table → c ∈ columns out) ∧
    ∀ i (r : row), rows table !! i = Some r →
      ∃ r' : row, rows out !! i = Some r' ∧
        r' !!! col = r !!! col ∧
        r' !!! componentindex = r !!! componentindex ∧
        ∀ c, c ≠ col +:+ "_network" → c ≠ col +:+ "_networkid" →
             r' !! c = r !! c.
Proof.
  intros Hcol Hidx. eexists. split; [by apply propagate_total|]. simpl.
  split; [by intros c Hc; do 2 apply elem_of_add_column|].
  intros i r Hr. eexists. rw list_lookup_fmap Hr /=. split; [done|].
  split_and!.
  - apply network_columns_total_other; apply not_eq_sym, string_app_ne_self; done.
  - apply network_columns_componentindex.
  - intros c Hn Hid. by apply network_columns_other.
Qed.


(** X16.  Propagating two tiers one after the other gives the same rows in
    either order, as long as the labels involved are distinct: the run for
    one tier does not influence the run for another. *)
Theorem propagation_commutes (table : frame) (col1 col2 : string) :
  col1 ∈ columns table → col2 ∈ columns table →
  componentindex ∈ columns table →
  NoDup [col1; col2; col1 +:+ "_network"; col1 +:+ "_networkid";
         col2 +:+ "_network"; col2 +:+ "_networkid"] →
  ∃ t1 t12 t2 t21,
    _propagate_microbial_annotation table col1 = Some t1 ∧
    _propagate_microbial_annotation t1 col2 = Some t12 ∧
    _propagate_microbial_annotation table col2 = Some t2 ∧
    _propagate_microbial_annotation t2 col1 = Some t21 ∧
    rows t12 = rows t21 ∧
    ∀ c, c ∈ columns t12 ↔ c ∈ columns t21.
Proof.
  intros Hcol1 Hcol2 Hidx Hnd.
  assert (col1 ≠ col2 +:+ "_network" ∧ col1 ≠ col2 +:+ "_networkid" ∧
          col2 ≠ col1 +:+ "_network" ∧ col2 ≠ col1 +:+ "_networkid" ∧
          col1 +:+ "_network" ≠ col2 +:+ "_network" ∧
          col1 +:+ "_network" ≠ col2 +:+ "_networkid" ∧
          col1 +:+ "_networkid" ≠ col2 +:+ "_network" ∧
          col1 +:+ "_networkid" ≠ col2 +:+ "_networkid")
    as (H1 & H2 & H3 & H4 & H5 & H6 & H7 & H8).
  { rw !NoDup_cons !not_elem_of_cons in Hnd. intuition congruence. }
  do 4 eexists.
  split; [by apply propagate_total|].
  split; [apply propagate_total; simpl; by do 2 apply elem_of_add_column|].
  split; [by apply propagate_total|].
  split; [apply propagate_total; simpl; by do 2 apply elem_of_add_column|].
  simpl. split.
  - rw !(sources_ext _ _ (network_columns _ _));
      [|intros r;
        first [apply network_columns_componentindex
              |by apply network_columns_total_other]..].
    rw -!list_fmap_compose. apply list_fmap_ext. intros _ r _. simpl.
    unfold network_columns at 1 3. rw !network_columns_componentindex.
    unfold network_columns. apply map_eq. intros c.
    rw !lookup_insert. repeat case_decide; congruence.
  - intros c. rw !elem_of_add_column_iff. tauto.
Qed.

Lemma propagation_keeps_cells_witness :
  "is_microbial_level_2" ∈ columns Demo.tiered ∧
  componentindex ∈ columns Demo.tiered ∧
  ∃ out, _propagate_microbial_annotation Demo.tiered "is_microbial_level_2" = Some out ∧
    (∀ c, c ∈ columns Demo.tiered → c ∈ columns out) ∧
    ∀ i (r : row), rows Demo.tiered !! i = Some r →
      ∃ r' : row, rows out !! i = Some r' ∧
        r' !!! "is_microbial_level_2" = r !!! "is_microbial_level_2" ∧
        r' !!! componentindex = r !!! componentindex ∧
        ∀ c, c ≠ "is_microbial_level_2" +:+ "_network" →
             c ≠ "is_microbial_level_2" +:+ "_networkid" →
             r' !! c = r !! c.
Proof.
  split; [by_compute|]. split; [by_compute|].
  apply (propagation_keeps_cells Demo.tiered "is_microbial_level_2"); by_compute.
Defined.


Lemma propagation_commutes_witness :
  "is_microbial_level_2" ∈ columns Demo.tiered ∧
  "is_microbial_level_3" ∈ columns Demo.tiered ∧
  componentindex ∈ columns Demo.tiered ∧
  NoDup ["is_microbial_level_2"; "is_microbial_level_3";
         "is_microbial_level_2" +:+ "_network";
         "is_microbial_level_2" +:+ "_networkid";
         "is_microbial_level_3" +:+ "_network";
         "is_microbial_level_3" +:+ "_networkid"] ∧
  ∃ t1 t12 t2 t21,
    _propagate_microbial_annotation Demo.tiered "is_microbial_level_2" = Some t1 ∧
    _propagate_microbial_annotation t1 "is_microbial_level_3" = Some t12 ∧
    _propagate_microbial_annotation Demo.tiered "is_microbial_level_3" = Some t2 ∧
    _propagate_microbial_annotation t2 "is_microbial_level_2" = Some t21 ∧
    rows t12 = rows t21 ∧
    ∀ c, c ∈ columns t12 ↔ c ∈ columns t21.
Proof.
  split; [by_compute|]. split; [by_compute|]. split; [by_compute|].
  split; [by_compute|].
  apply (propagation_commutes Demo.tiered
           "is_microbial_level_2" "is_microbial_level_3"); by_compute.
Defined.

(** ** What the notebook needs and what it writes *)

Section notebook_columns.
Implicit Types (table out : frame) (cols labels : list string).

Lemma elem_of_foldl_add_column cols labels x :
  x ∈ foldl add_column cols labels ↔ x ∈ cols ∨ x ∈ labels.
Proof.
  revert cols. induction labels as [|c labels IH]; intros cols; simpl.
  - split; [by left|]. by intros [?|?%elem_of_nil].
  - rw IH elem_of_add_column_iff elem_of_cons. tauto.
Qed.

Lemma setitem_columns c vals table out :
  setitem c vals table = Some out → columns out = add_column (columns table) c.
Proof. unfold setitem. case_decide; [|done]. by intros [= <-]. Qed.

Lemma prepare_inchikey_columns table col out :
  _prepare_inchikey table col = Some out →
  col ∈ columns table ∧
  columns out = add_column (columns table) (col +:+ "_no_stereo").
Proof.
  unfold _prepare_inchikey, column. case_decide; [|done]. simpl.
  by intros ?%setitem_columns.
Qed.

Lemma tiering_columns table out :
  tiering table = Some out →
  columns out =
  foldl add_column (columns table)
    ["is_microbial_level_2"; "is_microbial_level_3"; "is_microbial_level_4";
     "is_microbial_level_2_3"; "is_microbial_level_2_3_4"].
Proof.
  unfold tiering. intros (ls & _ & H)%bind_Some.
  apply bind_Some in H as (t1 & H1%setitem_columns & H).
  apply bind_Some in H as (t2 & H2%setitem_columns & H).
  apply bind_Some in H as (t3 & H3%setitem_columns & H).
  apply bind_Some in H as (t4 & H4%setitem_columns & H5%setitem_columns).
  simpl. congruence.
Qed.

Lemma tool_summary_columns table out :
  tool_summary table = Some out →
  columns out =
  foldl add_column (columns table) ["is_microbial_tool"; "is_microbial_tool_id"].
Proof.
  unfold tool_summary. intros (els & _ & H)%bind_Some.
  apply bind_Some in H as (t1 & H1%setitem_columns & H2%setitem_columns).
  simpl. congruence.
Qed.

Lemma propagate_columns table col out :
  _propagate_microbial_annotation table col = Some out →
  columns out =
  foldl add_column (columns table) [col +:+ "_network"; col +:+ "_networkid"].
Proof.
  unfold _propagate_microbial_annotation. intros (plist & _ & H)%bind_Some.
  apply bind_Some in H as (marks & _ & H).
  apply bind_Some in H as (t1 & H1%setitem_columns & H2%setitem_columns).
  simpl. congruence.
Qed.

Lemma drop_column_Some c table out :
  drop_column c table = Some out →
  c ∈ columns table ∧ columns out = filter (λ x, x ≠ c) (columns table) ∧
  rows out = delete c <$> rows table.
Proof. unfold drop_column. case_decide; [|done]. by intros [= <-]. Qed.

Lemma annotate_columns table out :
  annotate table = Some out →
  "Unnamed: 0" ∈ foldl add_column (columns table) derived_labels ∧
  columns out =
  filter (λ x, x ≠ "Unnamed: 0") (foldl add_column (columns table) derived_labels) ∧
  ∀ r : row, r ∈ rows out → r !! "Unnamed: 0" = None.
Proof.
  unfold annotate. intros (t1 & H1%tiering_columns & H)%bind_Some.
  apply bind_Some in H as (t2 & H2%tool_summary_columns & H).
  apply bind_Some in H as (t3 & H3%propagate_columns & H).
  apply bind_Some in H as (t4 & H4%propagate_columns & H).
  apply bind_Some in H as (t5 & H5%propagate_columns & H).
  apply bind_Some in H as (t6 & H6%propagate_columns & H).
  apply bind_Some in H as (t7 & H7%propagate_columns & H).
  apply drop_column_Some in H as (Hin & Hcols & Hrows).
  assert (columns t7 = foldl add_column (columns table) derived_labels) as Ht7.
  { rw H7 H6 H5 H4 H3 H2 H1. unfold derived_labels.
    by rw -!foldl_app. }
  rw -Ht7. split_and!; [done..|].
  intros r. rw Hrows. intros (r' & -> & _)%list_elem_of_fmap.
  apply lookup_delete_eq.
Qed.

Lemma in_columns_back cols labels x :
  x ∈ foldl add_column cols labels → x ∉ labels → x ∈ cols.
Proof. by intros [?|?]%elem_of_foldl_add_column. Qed.

Lemma groupby_needs key fields prefix (ref agg : frame) :
  add_prefix prefix <$> groupby_agg key fields ref = Some agg →
  Forall (λ c, c ∈ columns ref) (key :: fields).
Proof. intros (g & Hg & _)%fmap_Some. by eapply groupby_agg_Some. Qed.

(** Cells 3 to 12, column by column. *)
Lemma match_databases_trace features npatlas mibig merged :
  match_databases features npatlas mibig = Some merged →
  Forall (λ c, c ∈ columns features) [gnps_lib; gnps_liba; derep; derepplus; csi] ∧
  Forall (λ c, c ∈ columns npatlas) npatlas_raw ∧
  Forall (λ c, c ∈ columns mibig) mibig_raw ∧
  columns merged =
  foldl add_column (columns features) first_block_labels ++ reference_labels.
Proof.
  unfold match_databases.
  intros (npa & [Hn Hnpa]%prepare_inchikey_columns & H)%bind_Some.
  apply bind_Some in H as (f1 & [Hc1 H1]%prepare_inchikey_columns & H).
  apply bind_Some in H as (f2 & [Hc2 H2]%prepare_inchikey_columns & H).
  apply bind_Some in H as (f3 & [Hc3 H3]%prepare_inchikey_columns & H).
  apply bind_Some in H as (f4 & [Hc4 H4]%prepare_inchikey_columns & H).
  apply bind_Some in H as (f5 & [Hc5 H5]%prepare_inchikey_columns & H).
  apply bind_Some in H as (m1 & Hm1 & H).
  pose proof (aggregate_npatlas_columns _ _ _ _ _ Hm1) as C1.
  apply bind_Some in H as (m2 & C2%aggregate_npatlas_columns & H).
  apply bind_Some in H as (m3 & C3%aggregate_npatlas_columns & H).
  apply bind_Some in H as (m4 & C4%aggregate_npatlas_columns & H).
  apply bind_Some in H as (m5 & C5%aggregate_npatlas_columns & H).
  apply bind_Some in H as (m6 & Hm6 & H).
  pose proof (aggregate_mibig_columns _ _ _ _ _ Hm6) as C6.
  apply bind_Some in H as (m7 & C7%aggregate_mibig_columns & H).
  apply bind_Some in H as (m8 & C8%aggregate_mibig_columns & H).
  apply bind_Some in H as (m9 & C9%aggregate_mibig_columns & H).
  apply aggregate_mibig_columns in H as C10.
  split_and!.
  - repeat constructor; [done|..].
    + apply (in_columns_back _ [gnps_lib +:+ "_no_stereo"]); [|by_compute].
      simpl. by rw -H1.
    + apply (in_columns_back _ [gnps_lib +:+ "_no_stereo";
                                gnps_liba +:+ "_no_stereo"]); [|by_compute].
      simpl. by rw -H1 -H2.
    + apply (in_columns_back _ [gnps_lib +:+ "_no_stereo";
                                gnps_liba +:+ "_no_stereo";
                                derep +:+ "_no_stereo"]); [|by_compute].
      simpl. by rw -H1 -H2 -H3.
    + apply (in_columns_back _ [gnps_lib +:+ "_no_stereo";
                                gnps_liba +:+ "_no_stereo";
                                derep +:+ "_no_stereo";
                                derepplus +:+ "_no_stereo"]); [|by_compute].
      simpl. by rw -H1 -H2 -H3 -H4.
  - unfold _aggregate_npatlas in Hm1.
    apply bind_Some in Hm1 as (agg & Hneeds%groupby_needs & _).
    assert (Forall (λ c, c ∈ String.app "NPA_" <$> columns npatlas)
              (String.app "NPA_" <$> npatlas_raw)) as Hraw.
    { change (String.app "NPA_" <$> npatlas_raw)
        with ("NPA_compound_inchikey" :: npatlas_fields).
      constructor; [done|]. apply Forall_cons in Hneeds as [_ Hneeds].
      apply Forall_forall. intros c Hc. rw Forall_forall in Hneeds.
      specialize (Hneeds c Hc). rw Hnpa in Hneeds.
      apply (in_columns_back _ [npatlas_key]); [done|].
      rw list_elem_of_singleton. intros ->. revert Hc. by_compute. }
    apply Forall_fmap in Hraw. eapply Forall_impl; [exact Hraw|].
    intros c. simpl. apply list_elem_of_fmap_inj_2, _.
  - unfold _aggregate_mibig in Hm6.
    apply bind_Some in Hm6 as (agg & Hneeds%groupby_needs & _).
    assert (Forall (λ c, c ∈ String.app "MIBIG_" <$> columns mibig)
              (String.app "MIBIG_" <$> mibig_raw)) as Hraw by exact Hneeds.
    apply Forall_fmap in Hraw. eapply Forall_impl; [exact Hraw|].
    intros c. simpl. apply list_elem_of_fmap_inj_2, _.
  - rw C10 C9 C8 C7 C6 C5 C4 C3 C2 C1 H5 H4 H3 H2 H1 -!app_assoc. reflexivity.
Qed.
End notebook_columns.

(** X17.  The notebook returns a table only when its inputs have the columns
    it reads: the five identifier columns and the index column in the
    feature table, the InChIKey and the seven metadata columns in NPAtlas,
    the first-block column and the four metadata columns in MIBIG.  On any
    other input it raises. *)
Theorem notebook_needs_columns (features npatlas mibig out : frame) :
  notebook features npatlas mibig = Some out →
  Forall (λ c, c ∈ columns features)
    [gnps_lib; gnps_liba; derep; derepplus; csi; "Unnamed: 0"] ∧
  Forall (λ c, c ∈ columns npatlas) npatlas_raw ∧
  Forall (λ c, c ∈ columns mibig) mibig_raw.
Proof.
  unfold notebook.
  intros (merged & (Hids & Hnpa & Hmibig & Hcols)%match_databases_trace
                 & (Hin & _)%annotate_columns)%bind_Some.
  split_and!; [|done..].
  apply (Forall_app _ [gnps_lib; gnps_liba; derep; derepplus; csi] ["Unnamed: 0"]).
  split; [done|]. constructor; [|done].
  apply in_columns_back in Hin; [|by_compute].
  rw Hcols in Hin. apply elem_of_app in Hin as [Hin|Hin].
  - apply in_columns_back in Hin; [done|by_compute].
  - exfalso. revert Hin. by_compute.
Qed.

Lemma notebook_needs_columns_witness :
  notebook Demo.features Demo.npatlas Demo.mibig = Some Demo.out ∧
  Forall (λ c, c ∈ columns Demo.features)
    [gnps_lib; gnps_liba; derep; derepplus; csi; "Unnamed: 0"] ∧
  Forall (λ c, c ∈ columns Demo.npatlas) npatlas_raw ∧
  Forall (λ c, c ∈ columns Demo.mibig) mibig_raw.
Proof.
  assert (notebook Demo.features Demo.npatlas Demo.mibig = Some Demo.out) as Hrun.
  { apply default_is_Some. by_compute. }
  split; [exact Hrun|].
  apply (notebook_needs_columns Demo.features Demo.npatlas Demo.mibig Demo.out).
  exact Hrun.
Defined.



(** ** The notebook runs on well-formed input *)

Section runs.
Implicit Types (l j : row) (table ref out : frame) (key prefix col : string)
  (fields : list string).

Lemma lookup_total_union_cases l j c :
  (l ∪ j) !!! c = l !!! c ∨ (l ∪ j) !!! c = j !!! c.
Proof.
  rw !lookup_total_alt lookup_union.
  destruct (l !! c), (j !! c); simpl; auto.
Qed.

Lemma agg_row_cell key fields (rs : list row) k prefix c :
  c ≠ prefix +:+ key →
  string_or_missing
    (kmap (M2 := gmap string) (String.app prefix) (agg_row key fields rs k) !!! c).
Proof.
  intros Hc. rw lookup_total_alt.
  destruct (kmap _ _ !! c) as [v|] eqn:Hv; [|done]. simpl.
  apply (lookup_kmap_Some (String.app prefix)) in Hv as (c' & -> & Hv).
  unfold agg_row in Hv. rw lookup_insert_ne in Hv; [|by intros ->].
  apply elem_of_list_to_map_2 in Hv.
  by apply list_elem_of_fmap in Hv as (fld & [= _ ->] & _).
Qed.

Lemma merge_left_total table (agg : frame) left_on right_on :
  left_on ∈ columns table → right_on ∈ columns agg →
  is_Some (merge_left table agg left_on right_on).
Proof. intros Hl Hr. unfold merge_left. by rw decide_True. Qed.

(** One aggregate-and-merge call on a ready table. *)
Lemma aggregate_merge_ready key fields prefix col table ref :
  key ∉ fields →
  Forall (λ cn : string * string, cn.1 ≠ prefix +:+ key) tool_combinations →
  Forall (λ c, c ∈ columns ref) (key :: fields) →
  col +:+ "_no_stereo" ∈ columns table →
  ready table →
  ∃ out,
    (agg ← add_prefix prefix <$> groupby_agg key fields ref;
     merge_left table agg (col +:+ "_no_stereo") (prefix +:+ key)) = Some out ∧
    ready out.
Proof.
  intros Hkey Hlabels Href Hcol [Hcols Hrows].
  destruct (groupby_agg key fields ref) as [g|] eqn:Hg; last first.
  { unfold groupby_agg in Hg. by rw decide_True in Hg. }
  simpl.
  destruct (merge_left_total table (add_prefix prefix g)
              (col +:+ "_no_stereo") (prefix +:+ key)) as [out Hout]; [done|..].
  { unfold groupby_agg in Hg. case_decide; [|done]. simplify_eq. by left. }
  exists out. split; [done|].
  pose proof (aggregate_merge_rows _ _ _ _ _ _ _ _ Hg Hout) as Hrs.
  unfold merge_left in Hout. case_decide; [|done]. simplify_eq. split.
  - simpl. eapply Forall_impl; [exact Hcols|]. intros c Hc.
    apply elem_of_app. by left.
  - rw Hrs. apply Forall_fmap, Forall_forall. intros l Hl. simpl.
    rw Forall_forall in Hrows. specialize (Hrows l Hl).
    rw !Forall_forall in Hrows Hlabels |- *. intros cn Hcn.
    match goal with
    | |- string_or_missing ((l ∪ ?j) !!! _) =>
        destruct (lookup_total_union_cases l j cn.1) as [-> | ->]
    end; [by apply Hrows|].
    case_decide; [by apply agg_row_cell, Hlabels|by rw nan_row_lookup].
Qed.

Lemma prepare_inchikey_ready_cells table col :
  Forall (λ l : row,
    Forall (λ cn, string_or_missing (l !!! cn.1)) tool_combinations)
    (rows table) →
  Forall (λ cn : string * string, cn.1 ≠ col +:+ "_no_stereo") tool_combinations →
  Forall (λ l : row,
    Forall (λ cn, string_or_missing (l !!! cn.1)) tool_combinations)
    ((λ r : row, <[col +:+ "_no_stereo" := no_stereo (r !!! col)]> r)
       <$> rows table).
Proof.
  intros Hrows Hne. apply Forall_fmap, Forall_forall. intros l Hl. simpl.
  rw Forall_forall in Hrows. specialize (Hrows l Hl).
  rw !Forall_forall in Hrows Hne |- *. intros cn Hcn.
  rw lookup_total_insert_ne; [by apply Hrows|]. apply not_eq_sym. by apply Hne.
Qed.
End runs.

Section notebook_runs.
Implicit Types (table out : frame) (col : string).

Local Abbreviation cells_ok rs :=
  (Forall (λ l : row,
     Forall (λ cn : string * string, string_or_missing (l !!! cn.1))
       tool_combinations) rs).

Lemma prepare_inchikey_step table col :
  col ∈ columns table → cells_ok (rows table) →
  Forall (λ cn : string * string, cn.1 ≠ col +:+ "_no_stereo") tool_combinations →
  ∃ out, _prepare_inchikey table col = Some out ∧
         columns out = add_column (columns table) (col +:+ "_no_stereo") ∧
         cells_ok (rows out).
Proof.
  intros Hcol Hcells Hne. eexists. split; [by apply prepare_inchikey_total|].
  split; [done|]. by apply prepare_inchikey_ready_cells.
Qed.

Lemma aggregate_npatlas_step table npatlas col prefix :
  Forall (λ cn : string * string, cn.1 ≠ prefix +:+ npatlas_key) tool_combinations →
  Forall (λ c, c ∈ columns npatlas) (npatlas_key :: npatlas_fields) →
  col +:+ "_no_stereo" ∈ first_block_labels →
  ready table →
  ∃ out, _aggregate_npatlas table npatlas col prefix = Some out ∧ ready out.
Proof.
  intros Hne Href Hcol Hready.
  apply (aggregate_merge_ready npatlas_key npatlas_fields); [by_compute|done..| |done].
  destruct Hready as [Hcols _]. rw Forall_forall in Hcols.
  apply Hcols, elem_of_app. by left.
Qed.

Lemma aggregate_mibig_step table mibig col prefix :
  Forall (λ cn : string * string, cn.1 ≠ prefix +:+ mibig_key) tool_combinations →
  Forall (λ c, c ∈ columns mibig) (mibig_key :: mibig_fields) →
  col +:+ "_no_stereo" ∈ first_block_labels →
  ready table →
  ∃ out, _aggregate_mibig table mibig col prefix = Some out ∧ ready out.
Proof.
  intros Hne Href Hcol Hready.
  apply (aggregate_merge_ready mibig_key mibig_fields); [by_compute|done..| |done].
  destruct Hready as [Hcols _]. rw Forall_forall in Hcols.
  apply Hcols, elem_of_app. by left.
Qed.

Lemma match_databases_runs features npatlas mibig :
  Forall (λ c, c ∈ columns features)
    [gnps_lib; gnps_liba; derep; derepplus; csi; componentindex; "Unnamed: 0"] →
  Forall (λ c, c ∈ columns npatlas) npatlas_raw →
  Forall (λ c, c ∈ columns mibig) mibig_raw →
  cells_ok (rows features) →
  ∃ merged, match_databases features npatlas mibig = Some merged ∧ ready merged.
Proof.
  intros Hf Hn Hm Hcells. unfold match_databases.
  (* NPAtlas: renamed, then its first block *)
  assert (Forall (λ c, c ∈ String.app "NPA_" <$> columns npatlas)
            ("NPA_compound_inchikey" :: npatlas_fields)) as Hnpa.
  { change ("NPA_compound_inchikey" :: npatlas_fields)
      with (String.app "NPA_" <$> npatlas_raw).
    apply Forall_fmap. eapply Forall_impl; [exact Hn|].
    intros c Hc. simpl. by apply list_elem_of_fmap_2. }
  rw (prepare_inchikey_total (add_prefix "NPA_" npatlas) "NPA_compound_inchikey");
    [|by apply Forall_cons in Hnpa as [? _]].
  simpl.
  match goal with
  | |- context [_aggregate_npatlas _ ?n _ _] => set (npa := n)
  end.
  assert (Forall (λ c, c ∈ columns npa) (npatlas_key :: npatlas_fields)) as Href.
  { subst npa. simpl. constructor; [apply elem_of_add_column_new|].
    apply Forall_cons in Hnpa as [_ Hnpa].
    eapply Forall_impl; [exact Hnpa|]. intros c. apply elem_of_add_column. }
  assert (Forall (λ c, c ∈ columns (add_prefix "MIBIG_" mibig))
            (mibig_key :: mibig_fields)) as Hrefm.
  { change (mibig_key :: mibig_fields) with (String.app "MIBIG_" <$> mibig_raw).
    apply Forall_fmap. eapply Forall_impl; [exact Hm|].
    intros c Hc. simpl. by apply list_elem_of_fmap_2. }
  clearbody npa.
  (* the five first blocks of the feature table *)
  rw !Forall_cons in Hf.
  destruct Hf as (F1 & F2 & F3 & F4 & F5 & Fidx & Fun & _).
  destruct (prepare_inchikey_step features gnps_lib) as (f1 & -> & C1 & R1);
    [done|done|by_compute|]. simpl.
  destruct (prepare_inchikey_step f1 gnps_liba) as (f2 & -> & C2 & R2);
    [rw C1; by apply elem_of_add_column|done|by_compute|]. simpl.
  destruct (prepare_inchikey_step f2 derep) as (f3 & -> & C3 & R3);
    [rw C2 C1; by do 2 apply elem_of_add_column|done|by_compute|]. simpl.
  destruct (prepare_inchikey_step f3 derepplus) as (f4 & -> & C4 & R4);
    [rw C3 C2 C1; by do 3 apply elem_of_add_column|done|by_compute|]. simpl.
  destruct (prepare_inchikey_step f4 csi) as (f5 & -> & C5 & R5);
    [rw C4 C3 C2 C1; by do 4 apply elem_of_add_column|done|by_compute|]. simpl.
  assert (ready f5) as Hready.
  { split; [|done]. rw C5 C4 C3 C2 C1.
    repeat constructor;
      repeat first [apply elem_of_add_column_new | apply elem_of_add_column];
      done. }
  clear R1 R2 R3 R4 R5 C1 C2 C3 C4 C5.
  (* the ten merges *)
  destruct (aggregate_npatlas_step f5 npa gnps_lib "GNPS_LIB_")
    as (m1 & -> & Hr1); [by_compute|done|by_compute|done|]. simpl.
  destruct (aggregate_npatlas_step m1 npa gnps_liba "GNPS_LIBA_")
    as (m2 & -> & Hr2); [by_compute|done|by_compute|done|]. simpl.
  destruct (aggregate_npatlas_step m2 npa derep "DEREP_")
    as (m3 & -> & Hr3); [by_compute|done|by_compute|done|]. simpl.
  destruct (aggregate_npatlas_step m3 npa derepplus "DEREP+_")
    as (m4 & -> & Hr4); [by_compute|done|by_compute|done|]. simpl.
  destruct (aggregate_npatlas_step m4 npa csi "CSI_")
    as (m5 & -> & Hr5); [by_compute|done|by_compute|done|]. simpl.
  destruct (aggregate_mibig_step m5 (add_prefix "MIBIG_" mibig) gnps_lib "GNPS_LIB_")
    as (m6 & -> & Hr6); [by_compute|done|by_compute|done|]. simpl.
  destruct (aggregate_mibig_step m6 (add_prefix "MIBIG_" mibig) gnps_liba "GNPS_LIBA_")
    as (m7 & -> & Hr7); [by_compute|done|by_compute|done|]. simpl.
  destruct (aggregate_mibig_step m7 (add_prefix "MIBIG_" mibig) derep "DEREP_")
    as (m8 & -> & Hr8); [by_compute|done|by_compute|done|]. simpl.
  destruct (aggregate_mibig_step m8 (add_prefix "MIBIG_" mibig) derepplus "DEREP+_")
    as (m9 & -> & Hr9); [by_compute|done|by_compute|done|]. simpl.
  destruct (aggregate_mibig_step m9 (add_prefix "MIBIG_" mibig) csi "CSI_")
    as (m10 & -> & Hr10); [by_compute|done|by_compute|done|].
  by exists m10.
Qed.

Lemma annotate_runs table :
  ready table →
  Forall (λ c, c ∈ columns table) level_2_3_4_evidence →
  Forall (λ cn, cn.1 ∈ columns table) tool_combinations →
  is_Some (annotate table).
Proof.
  intros [Hcols Hcells] Hev Htool. unfold annotate.
  assert (componentindex ∈ columns table ∧ "Unnamed: 0" ∈ columns table)
    as [Hidx Hun].
  { apply Forall_app in Hcols as [_ Hcols]. rw !Forall_cons in Hcols. tauto. }
  rw tiering_total //=.
  assert (Forall (λ cn : string * string, cn.1 ∈ tier_labels (columns table))
            tool_combinations) as Hlabels.
  { eapply Forall_impl; [exact Htool|]. intros cn Hcn.
    unfold tier_labels. by do 5 apply elem_of_add_column. }
  assert (cells_ok (tier_columns <$> rows table)) as Hstrings.
  { apply Forall_fmap. eapply Forall_impl; [exact Hcells|]. intros r Hr. simpl.
    apply Forall_forall. intros cn Hcn. rw tier_columns_tool_cells //.
    rw Forall_forall in Hr. by apply Hr. }
  rw tool_summary_total //=.
  unfold tier_labels.
  do 5 (rw propagate_total /=;
        [|repeat first [apply elem_of_add_column_new | apply elem_of_add_column];
          done..]).
  unfold drop_column. simpl. rw decide_True; [done|].
  repeat apply elem_of_add_column. done.
Qed.
End notebook_runs.


